(** * Duplicate detection edge function (supabase/functions/ai-detect-duplicates)

    A shallow embedding of the request handler of
    [supabase/functions/ai-detect-duplicates/index.ts] and the properties of
    its duplicate grouping.

    Modelling conventions.
    - JavaScript numbers are IEEE 754 binary64 values: Rocq's primitive
      floats.  File sizes are non-negative integers ([N]); they are assumed
      to be safe integers (below 2^53), so their conversion to a number and
      their decimal printing are exact.
    - A JavaScript object reference is a pair of the position of the object
      in the request's [files] array and the descriptor found there: two
      references denote the same object exactly when their positions agree.
    - A string is written with one character per UTF-16 code unit: the
      model covers text in the Latin-1 range, where [substring] and
      [length] agree with JavaScript's.
    - The members of a request body have the types the TypeScript caller
      declares, and its numbers are finite.
    - An optional JSON field is an [option]; [None] is [undefined].
    - Everything outside the function (the similarity model, the auth
      service, the results table, the clock, the process environment) is a
      field of [World]; the I/O performed is returned as a list of events in
      chronological order. *)

From Stdlib Require Import ZArith NArith List String Ascii Bool Lia Uint63.
From Stdlib Require Import DecimalString.
From Stdlib Require Import Sorting.Permutation Sorting.Sorted.
From Stdlib Require Import Floats.PrimFloat Floats.SpecFloat Floats.FloatOps.
Import ListNotations.

Set Warnings "-inexact-float".

Local Open Scope string_scope.
Local Open Scope list_scope.

(** ** JavaScript helpers *)

Module Js.

(** [s || d] for an optional string: [undefined] and [''] are falsy. *)
Definition or_else (o : option string) (d : string) : string :=
  match o with
  | Some s => if s =? "" then d else s
  | None => d
  end.

Definition truthy (o : option string) : bool :=
  match o with
  | Some s => negb (s =? "")
  | None => false
  end.

(** [`${o}`] for an optional string. *)
Definition show_string (o : option string) : string :=
  match o with
  | Some s => s
  | None => "undefined"
  end.

(** [`${n}`] for an optional non-negative integer. *)
Definition show_number (o : option N) : string :=
  match o with
  | Some n => NilEmpty.string_of_uint (N.to_uint n)
  | None => "undefined"
  end.

(** The number denoted by a non-negative integer. *)
Definition of_N (n : N) : float := PrimFloat.of_uint63 (Uint63.of_Z (Z.of_N n)).

(** The integer nearest to [m * 2^e * 100], the larger one on a tie. *)
Definition hundredths (m e : Z) : Z :=
  if (0 <=? e)%Z then (m * 2 ^ e * 100)%Z
  else ((m * 200 + 2 ^ (- e)) / (2 * 2 ^ (- e)))%Z.

(** [parseFloat(x.toFixed(2))].  [toFixed] rounds the exact value of [x]
    to the nearest multiple of 1/100 (away from zero on a tie) and
    [parseFloat] reads the decimal back as the nearest number.  Exact for
    [100 * |x| < 2^53]. *)
Definition toFixed2 (x : float) : float :=
  match Prim2SF x with
  | S754_zero _ => 0%float
  | S754_finite s m e =>
      let v := (of_N (Z.to_N (hundredths (Z.pos m) e)) / 100)%float in
      if s then (- v)%float else v
  | _ => x
  end.

(** [Math.max(a, b)] (the sign of a zero result is not tracked). *)
Definition max2 (a b : float) : float :=
  if is_nan a || is_nan b then nan
  else if (a <? b)%float then b else a.

(** [Math.max(...l)]. *)
Definition max (l : list float) : float := fold_left max2 l neg_infinity.

(** A JSON value found where the handler expects a number.  The handler
    compares it through the number JavaScript converts it to and copies it
    to the response as it is. *)
Inductive value :=
| Num (x : float)                      (* a JSON number *)
| NonNum (json : string) (as_number : float)
                                       (* a string, boolean, null, array or object: its
                                          JSON text and the number [>=] converts it to
                                          (NaN when it converts to none) *)
| Missing.                             (* no such field: [undefined] *)

(** [a >= b] for a number [b]: [a] is converted to a number, [undefined] to
    NaN, and a comparison with NaN is false. *)
Definition geq (a : value) (b : float) : bool :=
  match a with
  | Num x | NonNum _ x => (b <=? x)%float
  | Missing => false
  end.

(** [s.replace(pat, '')]: the first occurrence of [pat] is removed. *)
Definition remove_first (pat s : string) : string :=
  match index 0 pat s with
  | Some i => substring 0 i s ++ substring (i + String.length pat) (String.length s - (i + String.length pat)) s
  | None => s
  end.

End Js.

(** ** Data *)

(** An element of the request's [files] array (the shape declared by the
    caller, [detectDuplicates] in [src/lib/ai-service.ts]). *)
Record File := mkFile {
  fileName : string;
  filePath : option string;
  content : option string;
  size : option N;
  mimeType : option string;
  hash : option string
}.

(** A reference to an element of [files]: its position and the element. *)
Definition FileRef : Type := nat * File.

Definition ref_id : FileRef -> nat := fst.
Definition ref_file : FileRef -> File := snd.
Definition ref_name (r : FileRef) : string := fileName (ref_file r).

(** The references to the elements of an array, in order. *)
Definition refs_from (start : nat) (files : list File) : list FileRef :=
  combine (seq start (List.length files)) files.

Definition refs (files : list File) : list FileRef := refs_from 0 files.

Inductive DetectionMethod := exact_hash_match | ai_content_similarity.

Definition DetectionMethod_eqb (a b : DetectionMethod) : bool :=
  match a, b with
  | exact_hash_match, exact_hash_match => true
  | ai_content_similarity, ai_content_similarity => true
  | _, _ => false
  end.

(** The object parsed from the model's answer, and the literal attached to
    exact groups.  [similarity_score] is the field as the answer has it: a
    number, another JSON value, or nothing. *)
Record Similarity := mkSimilarity {
  similarity_score : Js.value;
  recommendation : option string;
  sd_detection_method : option string;
  similar_elements : list string;
  differences : list string
}.

(** An element of [duplicateGroups]. *)
Record Group := mkGroup {
  files : list FileRef;
  similarity_details : list Similarity;
  detection_method : DetectionMethod
}.

(** The four interpolated parts of [similarityPrompt]. *)
Record Prompt := mkPrompt {
  name1 : string;
  excerpt1 : string;
  name2 : string;
  excerpt2 : string
}.

(** What one call of the similarity model comes to. *)
Inductive Response :=
| FetchRejected                (* [fetch] rejects: network error *)
| NotOk                        (* [response.ok] is false *)
| BodyRejected                 (* [response.json()] rejects *)
| Unparseable                  (* [JSON.parse(content)] throws, or yields [null] *)
| Parsed (s : Similarity).     (* the parsed answer *)

Inductive AuthResponse :=
| AuthRejected (message : string)   (* [fetch] or [json()] rejects *)
| AuthNotOk                         (* [userResponse.ok] is false *)
| AuthOk (id : option string).      (* [userData.id] *)

(** An element of a formatted group's [files]. *)
Record FileInfo := mkFileInfo {
  name : string;
  path : string;
  size_mb : float;
  mime_type : string;
  fi_hash : string
}.

(** An element of [formattedGroups]. *)
Record GroupInfo := mkGroupInfo {
  gi_files : list FileInfo;
  total_size_mb : float;
  potential_savings_mb : float;
  gi_similarity_score : Js.value;
  gi_detection_method : DetectionMethod;
  gi_similarity_details : list Similarity
}.

Record ScanSummary := mkScanSummary {
  total_files_scanned : nat;
  duplicate_groups_found : nat;
  total_duplicate_files : nat;
  similarity_threshold : float;
  total_potential_savings_mb : float;
  scan_method : string;
  timestamp : string
}.

Record ScanResult := mkScanResult {
  success : bool;
  scan_summary : ScanSummary;
  duplicate_groups : list GroupInfo
}.

(** The I/O of the handler. *)
Inductive Event :=
| CollaboratorCall (p : Prompt)     (* POST openrouter.ai/api/v1/chat/completions *)
| UserLookup (token : string)       (* GET  <supabaseUrl>/auth/v1/user *)
| StoreResult (user_id : string) (r : ScanResult) (created_at : string)
                                    (* POST <supabaseUrl>/rest/v1/ai_analysis_results *)
| ConsoleLog (message : string).    (* console.warn / console.log / console.error *)

(** The parsed request body. *)
Record Body := mkBody {
  body_files : option (list File);        (* [None]: missing or not an array *)
  similarityThreshold : option float;
  includeSimilar : option bool
}.

Record Request := mkRequest {
  method : string;
  authorization : option string;
  json : string + Body                    (* [inl m]: [req.json()] rejects with message [m] *)
}.

Record World := mkWorld {
  OPENROUTER_API_KEY : option string;
  SUPABASE_URL : option string;
  SUPABASE_SERVICE_ROLE_KEY : option string;
  collaborator : FileRef -> FileRef -> Response;
  auth_user : string -> AuthResponse;
  store_rejects : bool;
  now : string;                           (* the clock when [result] is built *)
  now_store : string                      (* the clock when [detectionData] is built *)
}.

Inductive HttpResponse :=
| Preflight                               (* 200, empty body *)
| Data (r : ScanResult)                   (* 200, { data: result } *)
| Failed (message : string).              (* 500, DUPLICATE_DETECTION_FAILED *)

(** ** The grouping passes *)

(** [hash || `${fileName}_${size}_${mimeType}`] *)
Definition fileHash (f : File) : string :=
  Js.or_else (hash f)
    (fileName f ++ "_" ++ Js.show_number (size f) ++ "_" ++ Js.show_string (mimeType f)).

(** [fileHashes], a [Map] from keys to arrays of files; a [Map] iterates in
    insertion order, so it is kept as an association list in that order. *)
Definition HashMap : Type := list (string * list FileRef).

(** [if (fileHashes.has(k)) fileHashes.get(k).push(file) else fileHashes.set(k, [file])] *)
Fixpoint add_file (k : string) (r : FileRef) (m : HashMap) : HashMap :=
  match m with
  | [] => [(k, [r])]
  | (k', fs) :: m' =>
      if k' =? k then (k', fs ++ [r]) :: m' else (k', fs) :: add_file k r m'
  end.

(** First pass: the loop over [files] that fills [fileHashes]. *)
Definition fileHashes (rs : list FileRef) : HashMap :=
  fold_left (fun m r => add_file (fileHash (ref_file r)) r m) rs [].

(** [f.mimeType?.startsWith('text/') || f.content] *)
Definition is_text (f : File) : bool :=
  match mimeType f with
  | Some m => prefix "text/" m
  | None => false
  end || Js.truthy (content f).

Definition textFiles (rs : list FileRef) : list FileRef :=
  filter (fun r => is_text (ref_file r)) rs.

(** The pairs [(l[i], l[j])], [i < j], in the order the two nested loops
    visit them. *)
Fixpoint pairs {A : Type} (l : list A) : list (A * A) :=
  match l with
  | [] => []
  | x :: r => map (pair x) r ++ pairs r
  end.

(** The mutable state of the second pass. *)
Record PassState := mkPassState {
  duplicateGroups : list Group;
  processedFiles : list string;     (* a [Set], in insertion order *)
  trace : list Event
}.

(** [fs.some(f => f.fileName === n)] *)
Definition has_name (fs : list FileRef) (n : string) : bool :=
  existsb (fun f => ref_name f =? n) fs.

(** The test of [duplicateGroups.find]. *)
Definition mentions (file1 file2 : FileRef) (g : Group) : bool :=
  existsb (fun f => (ref_name f =? ref_name file1) || (ref_name f =? ref_name file2)) (files g).

(** The branch taken when [existingGroup] is found: the group is updated in
    place. *)
Definition extend (g : Group) (file1 file2 : FileRef) (s : Similarity) : Group :=
  let fs1 := if has_name (files g) (ref_name file1) then files g else files g ++ [file1] in
  let fs2 := if has_name fs1 (ref_name file2) then fs1 else fs1 ++ [file2] in
  mkGroup fs2 (similarity_details g ++ [s]) (detection_method g).

(** "Found similar files, group them": the first group that mentions one of
    the two names is extended where it stands; without one, a new group is
    pushed. *)
Fixpoint group_pair (file1 file2 : FileRef) (s : Similarity) (gs : list Group) : list Group :=
  match gs with
  | [] => [mkGroup [file1; file2] [s] ai_content_similarity]
  | g :: gs' =>
      if mentions file1 file2 g then extend g file1 file2 s :: gs'
      else g :: group_pair file1 file2 s gs'
  end.

(** [f.content?.substring(0, 2000) || 'No content'] *)
Definition excerpt (f : File) : string :=
  Js.or_else (option_map (substring 0 2000) (content f)) "No content".

Definition similarityPrompt (file1 file2 : FileRef) : Prompt :=
  mkPrompt (ref_name file1) (excerpt (ref_file file1))
           (ref_name file2) (excerpt (ref_file file2)).

(** [`${file1.fileName}_${file2.fileName}`] *)
Definition pair_key (file1 file2 : FileRef) : string :=
  ref_name file1 ++ "_" ++ ref_name file2.

(** The body of the inner loop, for one pair. *)
Definition compare_pair (ask : FileRef -> FileRef -> Response) (threshold : float)
    (st : PassState) (p : FileRef * FileRef) : PassState :=
  let (file1, file2) := p in
  if existsb (String.eqb (pair_key file1 file2)) (processedFiles st) then st
  else
    let processed := processedFiles st ++ [pair_key file1 file2] in
    if fileHash (ref_file file1) =? fileHash (ref_file file2)
    then mkPassState (duplicateGroups st) processed (trace st)
    else
      let called := trace st ++ [CollaboratorCall (similarityPrompt file1 file2)] in
      match ask file1 file2 with
      | FetchRejected | BodyRejected =>
          mkPassState (duplicateGroups st) processed
            (called ++ [ConsoleLog "AI similarity check failed:"])
      | NotOk => mkPassState (duplicateGroups st) processed called
      | Unparseable =>
          mkPassState (duplicateGroups st) processed
            (called ++ [ConsoleLog "Failed to parse similarity result:"])
      | Parsed s =>
          if Js.geq (similarity_score s) threshold
          then mkPassState (group_pair file1 file2 s (duplicateGroups st)) processed called
          else mkPassState (duplicateGroups st) processed called
      end.

(** Second pass over the text files. *)
Definition similarity_pass (ask : FileRef -> FileRef -> Response) (threshold : float)
    (rs : list FileRef) (st : PassState) : PassState :=
  fold_left (compare_pair ask threshold) (pairs (textFiles rs)) st.

Definition exact_details : Similarity :=
  mkSimilarity (Js.Num 1%float) (Some "duplicate") (Some "exact_match") [] [].

(** "Add exact duplicate groups (same hash)" *)
Definition exact_groups (m : HashMap) : list Group :=
  map (fun e => mkGroup (snd e) [exact_details] exact_hash_match)
      (filter (fun e => (1 <? List.length (snd e))%nat) m).

(** [Deno.env.get('OPENROUTER_API_KEY') || '<literal key>']; the literal of
    the source is not reproduced, only that it is a non-empty string. *)
Definition openRouterKey (w : World) : string :=
  Js.or_else (OPENROUTER_API_KEY w) "sk-or-v1-<elided>".

(** The two passes and the emission of the exact groups: the state when the
    statistics start. *)
Definition detect (w : World) (threshold : float) (include_similar : bool)
    (rs : list FileRef) : PassState :=
  let hashes := fileHashes rs in
  let st0 := mkPassState [] [] [] in
  let st :=
    if negb (openRouterKey w =? "") && include_similar
    then similarity_pass (collaborator w) threshold rs st0
    else st0 in
  mkPassState (duplicateGroups st ++ exact_groups hashes) (processedFiles st) (trace st).

(** ** Statistics and the result *)

(** [(file.size || 0) / (1024 * 1024)] *)
Definition sizeInMB (f : File) : float :=
  (Js.of_N (match size f with Some n => n | None => 0%N end) / 1048576)%float.

(** The object pushed on [groupInfo.files]. *)
Definition formatFile (f : File) : FileInfo :=
  mkFileInfo (fileName f)
             (Js.or_else (filePath f) "")
             (Js.toFixed2 (sizeInMB f))
             (Js.or_else (mimeType f) "unknown")
             (Js.or_else (hash f) "calculated").

(** The callback of [duplicateGroups.map]. *)
Definition formatGroup (g : Group) : GroupInfo :=
  let infos := map (fun r => formatFile (ref_file r)) (files g) in
  let total := fold_left (fun acc r => (acc + sizeInMB (ref_file r))%float) (files g) 0%float in
  let savings :=
    if (1 <? List.length infos)%nat
    then Js.toFixed2 (total - Js.max (map size_mb infos))%float
    else 0%float in
  let score :=
    match similarity_details g with
    | d :: _ => similarity_score d
    | [] => Js.Num 0%float
    end in
  mkGroupInfo infos total savings score (detection_method g) (similarity_details g).

Definition formattedGroups (gs : list Group) : list GroupInfo := map formatGroup gs.

(** The two counters updated inside the callback. *)
Definition totalDuplicateFiles (gs : list GroupInfo) : nat :=
  fold_left (fun acc g =>
               if (1 <? List.length (gi_files g))%nat
               then (acc + (List.length (gi_files g) - 1))%nat else acc) gs 0%nat.

Definition totalPotentialSavings (gs : list GroupInfo) : float :=
  fold_left (fun acc g =>
               if (1 <? List.length (gi_files g))%nat
               then (acc + potential_savings_mb g)%float else acc) gs 0%float.

(** The [result] object. *)
Definition build_result (w : World) (fs : list File) (threshold : float)
    (gs : list Group) : ScanResult :=
  let formatted := formattedGroups gs in
  mkScanResult true
    (mkScanSummary (List.length fs)
                   (List.length gs)
                   (totalDuplicateFiles formatted)
                   threshold
                   (Js.toFixed2 (totalPotentialSavings formatted))
                   (if openRouterKey w =? "" then "basic_hash" else "ai_enhanced")
                   (now w))
    formatted.

(** "Get user and store results": the events of the last part of the
    handler. *)
Definition store_results (w : World) (req : Request) (result : ScanResult) : list Event :=
  if Js.truthy (authorization req) then
    let token := Js.remove_first "Bearer " (Js.show_string (authorization req)) in
    UserLookup token ::
    match auth_user w token with
    | AuthRejected m => [ConsoleLog ("Could not get user from token: " ++ m)]
    | AuthNotOk => []
    | AuthOk id =>
        if Js.truthy id then
          StoreResult (Js.show_string id) result (now_store w) ::
          (if store_rejects w
           then [ConsoleLog "Failed to store duplicate detection result:"]
           else [])
        else []
    end
  else [].

(** The [catch] of the handler. *)
Definition failed (message : string) : HttpResponse * list Event :=
  (Failed message, [ConsoleLog ("Duplicate detection error: " ++ message)]).

(** The defaults of the destructuring
    [{ files, similarityThreshold = 0.9, includeSimilar = true }]. *)
Definition threshold_of (b : Body) : float :=
  match similarityThreshold b with Some t => t | None => 0.9%float end.

Definition include_of (b : Body) : bool :=
  match includeSimilar b with Some i => i | None => true end.

(** The handler: the response and the I/O performed. *)
Definition serve (w : World) (req : Request) : HttpResponse * list Event :=
  if method req =? "OPTIONS" then (Preflight, [])
  else
    match json req with
    | inl m => failed m
    | inr b =>
        match body_files b with
        | None | Some [] => failed "Files array is required"
        | Some fs =>
            if negb (Js.truthy (SUPABASE_URL w)) || negb (Js.truthy (SUPABASE_SERVICE_ROLE_KEY w))
            then failed "Supabase configuration missing"
            else
              let st := detect w (threshold_of b) (include_of b) (refs fs) in
              let result := build_result w fs (threshold_of b) (duplicateGroups st) in
              (Data result, trace st ++ store_results w req result)
        end
    end.

(** The groups of a scan, with the identity of their members, and the
    events of its two passes. *)
Definition scan_groups (w : World) (b : Body) (fs : list File) : list Group :=
  duplicateGroups (detect w (threshold_of b) (include_of b) (refs fs)).

Definition scan_trace (w : World) (b : Body) (fs : list File) : list Event :=
  trace (detect w (threshold_of b) (include_of b) (refs fs)).

(** A request that passes the checks at the head of the handler. *)
Definition accepted (w : World) (req : Request) (b : Body) (fs : list File) : Prop :=
  (method req =? "OPTIONS") = false /\
  json req = inr b /\
  body_files b = Some fs /\
  fs <> [] /\
  Js.truthy (SUPABASE_URL w) = true /\
  Js.truthy (SUPABASE_SERVICE_ROLE_KEY w) = true.

(** ** Sample data *)

Module Sample.

Definition file (n : string) (c : option string) (sz : N) (m h : string) : File :=
  mkFile n None c (Some sz) (Some m) (Some h).

Definition similar (score : float) : Response :=
  Parsed (mkSimilarity (Js.Num score) (Some "similar") None [] []).

Definition world (ask : FileRef -> FileRef -> Response) (t : string) : World :=
  mkWorld None (Some "https://project.supabase.co") (Some "service-role-key")
          ask (fun _ => AuthOk (Some "user-1")) false t t.

Definition post (auth : option string) (fs : list File) (thr : option float)
    (inc : option bool) : Request :=
  mkRequest "POST" auth (inr (mkBody (Some fs) thr inc)).

(* Scenario A *)
Definition a_pdf := file "a.pdf" None 100 "application/pdf" "h1".
Definition b_pdf := file "b.pdf" None 100 "application/pdf" "h1".

End Sample.

(** ** Notions used in the statements *)

(** The groups of the second pass (none when the pass is skipped). *)
Definition similarity_groups (w : World) (b : Body) (fs : list File) : list Group :=
  if negb (openRouterKey w =? "") && include_of b
  then duplicateGroups
         (similarity_pass (collaborator w) (threshold_of b) (refs fs) (mkPassState [] [] []))
  else [].

Definition has_key (k : string) (r : FileRef) : bool := fileHash (ref_file r) =? k.

(** The three facts that describe [fileHashes] after the first pass: keys
    are distinct, the array under a key holds the files of that key in the
    order of [files], and every file is under its key. *)
Record HashesOf (l : list FileRef) (m : HashMap) : Prop := {
  keys_NoDup : NoDup (map fst m);
  bucket_eq : forall k fs, In (k, fs) m -> fs = filter (has_key k) l;
  bucket_ex : forall r, In r l -> exists fs, In (fileHash (ref_file r), fs) m
}.

(** Members are elements of [files], each at most once. *)
Definition members_ok (l : list FileRef) (fs : list FileRef) : Prop :=
  NoDup (map ref_id fs) /\ (forall r, In r fs -> In r l).

(** [member i g]: the file at position [i] of [files] is a member of [g]. *)
Definition member (i : nat) (g : Group) : bool :=
  existsb (Nat.eqb i) (map ref_id (files g)).

(** The groups the file at position [i] belongs to. *)
Definition groups_of (i : nat) (gs : list Group) : list Group := filter (member i) gs.

Definition is_exact (g : Group) : bool :=
  DetectionMethod_eqb (detection_method g) exact_hash_match.

(** The members are the pair that created the group followed by the files
    pushed later, and only the two files of that pair can share a name. *)
Definition name_shape (fs : list FileRef) : Prop :=
  exists a b rest, fs = a :: b :: rest /\
    NoDup (map ref_name (a :: rest)) /\ NoDup (map ref_name (b :: rest)).

(** The prompts sent to the collaborator, in order. *)
Fixpoint calls (tr : list Event) : list Prompt :=
  match tr with
  | [] => []
  | CollaboratorCall p :: tr' => p :: calls tr'
  | _ :: tr' => calls tr'
  end.

Definition prompt_key (p : Prompt) : string := name1 p ++ "_" ++ name2 p.

(** Events of the collaborator calls: the call and the warning after a
    failed one. *)
Definition collaborator_event (e : Event) : Prop :=
  match e with
  | CollaboratorCall _ | ConsoleLog _ => True
  | _ => False
  end.

(** The invariant of the second pass on its events: only collaborator
    events, every prompt sent has its key in [processedFiles], and no key
    was sent twice. *)
Record TraceOk (st : PassState) : Prop := {
  only_collaborator : Forall collaborator_event (trace st);
  calls_processed : forall p, In p (calls (trace st)) -> In (prompt_key p) (processedFiles st);
  calls_NoDup : NoDup (map prompt_key (calls (trace st)))
}.






Definition with_clock (w : World) (t t' : string) : World :=
  mkWorld (OPENROUTER_API_KEY w) (SUPABASE_URL w) (SUPABASE_SERVICE_ROLE_KEY w)
          (collaborator w) (auth_user w) (store_rejects w) t t'.

Definition is_lookup (e : Event) : bool :=
  match e with UserLookup _ => true | _ => false end.

Definition is_store (e : Event) : bool :=
  match e with StoreResult _ _ _ => true | _ => false end.

(** "Every file appears in at most one group". *)
Definition each_file_in_at_most_one_group (gs : list Group) : Prop :=
  forall i, List.length (groups_of i gs) <= 1.

(** The I/O of a scan is the collaborator calls only. *)
Definition only_collaborator_io (tr : list Event) : Prop := Forall collaborator_event tr.

(** [potentialSavingsBytes] in the words of the specification: the total
    size of the members minus the size of the largest one. *)
Definition spec_potentialSavingsBytes (members : list File) : N :=
  let sizes := map (fun f => match size f with Some n => n | None => 0%N end) members in
  (fold_right N.add 0 sizes - fold_right N.max 0 sizes)%N.

(** The key of a file without a hash: its name, size and mime type. *)
Definition name_size_mime (f : File) : string :=
  fileName f ++ "_" ++ Js.show_number (size f) ++ "_" ++ Js.show_string (mimeType f).

(** The groups of a response (none when it carries no result). *)
Definition response_groups (h : HttpResponse) : list GroupInfo :=
  match h with
  | Data r => duplicate_groups r
  | _ => []
  end.

Definition with_timestamp (t : string) (r : ScanResult) : ScanResult :=
  let s := scan_summary r in
  mkScanResult (success r)
    (mkScanSummary (total_files_scanned s) (duplicate_groups_found s)
       (total_duplicate_files s) (similarity_threshold s)
       (total_potential_savings_mb s) (scan_method s) t)
    (duplicate_groups r).

(** ** Sample scans *)

Module Scans.

Import Sample.

Definition always (score : float) : FileRef -> FileRef -> Response :=
  fun _ _ => similar score.

Definition t0 : string := "2024-05-01T10:00:00.000Z".
Definition t1 : string := "2024-05-01T10:00:07.000Z".

Definition body (fs : list File) : Body := mkBody (Some fs) None None.

(* an exact pair, one of them also similar to a third file *)
Definition a_txt := file "a.txt" (Some "hello world") 11 "text/plain" "h1".
Definition a_bin := file "a-copy.bin" None 11 "application/octet-stream" "h1".
Definition c_txt := file "c.txt" (Some "hello world!") 12 "text/plain" "h2".
Definition overlap : list File := [a_txt; a_bin; c_txt].

(* two descriptors with one name and different content hashes *)
Definition notes_v1 := file "notes.txt" (Some "draft") 5 "text/plain" "h1".
Definition notes_v2 := file "notes.txt" (Some "draft 2") 7 "text/plain" "h2".
Definition same_name : list File := [notes_v1; notes_v2].

(* an exact pair whose largest member is 128 KiB, and one of two files of
   1052771 bytes *)
Definition eighth := file "big.bin" None 131072 "application/octet-stream" "h1".
Definition empty := file "empty.bin" None 0 "application/octet-stream" "h1".
Definition mib_a := file "x.bin" None 1052771 "application/octet-stream" "h7".
Definition mib_b := file "y.bin" None 1052771 "application/octet-stream" "h7".

(* a collaborator that fails on the first pair and matches the others *)
Definition flaky : FileRef -> FileRef -> Response :=
  fun file1 file2 =>
    if (ref_id file1 =? 0)%nat && (ref_id file2 =? 1)%nat then FetchRejected
    else similar 0.95%float.

Definition three_texts : list File :=
  [ file "p.txt" (Some "alpha") 5 "text/plain" "h1";
    file "q.txt" (Some "alpha.") 6 "text/plain" "h2";
    file "r.txt" (Some "alpha!") 6 "text/plain" "h3" ].

End Scans.

Ltac accept := unfold accepted; repeat split; try reflexivity; try discriminate.

(** ** The callers: [AIService] and the [DuplicateDetector] component

    [src/lib/ai-service.ts] posts the scan to the edge function and
    [src/components/DuplicateDetector.tsx] starts it from the "Scan for
    Duplicates" button.

    What travels between the two sides is modelled as follows.
    - The request body is the payload: under the bounds stated at the head
      of the file its fields survive [JSON.stringify] and [req.json()]
      unchanged (an absent field stays absent, a finite number reads back
      as itself).
    - The value of the Authorization header reaches the handler without
      its leading and trailing HTTP whitespace ([header_value]).
    - The result reaches the client through [JSON.stringify] and
      [response.json()], which write a negative zero as [0] and a
      non-finite number as [null] ([wire_result]). *)

(** Tab, line feed, carriage return and space. *)
Definition http_whitespace (c : ascii) : bool :=
  Ascii.eqb c (ascii_of_nat 9) || Ascii.eqb c (ascii_of_nat 10) ||
  Ascii.eqb c (ascii_of_nat 13) || Ascii.eqb c (ascii_of_nat 32).

Fixpoint strip_leading (s : string) : string :=
  match s with
  | EmptyString => EmptyString
  | String c s' => if http_whitespace c then strip_leading s' else s
  end.

Fixpoint strip_trailing (s : string) : string :=
  match s with
  | EmptyString => EmptyString
  | String c s' =>
      match strip_trailing s' with
      | EmptyString => if http_whitespace c then EmptyString else String c EmptyString
      | r => String c r
      end
  end.

(** A header value as [headers.get] gives it. *)
Definition header_value (s : string) : string := strip_trailing (strip_leading s).

(** A number after [JSON.stringify] and [JSON.parse]: [-0] is written [0].
    (A non-finite number is written [null]; under the stated bounds the
    number fields of a result are finite.) *)
Definition wire_number (x : float) : float :=
  if (x =? 0)%float then 0%float else x.

(** A [similarity_score] after [JSON.stringify] and [JSON.parse]. *)
Definition wire_value (v : Js.value) : Js.value :=
  match v with
  | Js.Num x => if is_finite x then Js.Num (wire_number x) else Js.NonNum "null" 0%float
  | _ => v
  end.

Definition wire_similarity (s : Similarity) : Similarity :=
  mkSimilarity (wire_value (similarity_score s)) (recommendation s) (sd_detection_method s)
               (similar_elements s) (differences s).

Definition wire_file (f : FileInfo) : FileInfo :=
  mkFileInfo (name f) (path f) (wire_number (size_mb f)) (mime_type f) (fi_hash f).

Definition wire_group (g : GroupInfo) : GroupInfo :=
  mkGroupInfo (map wire_file (gi_files g))
              (wire_number (total_size_mb g))
              (wire_number (potential_savings_mb g))
              (wire_value (gi_similarity_score g))
              (gi_detection_method g)
              (map wire_similarity (gi_similarity_details g)).

Definition wire_summary (s : ScanSummary) : ScanSummary :=
  mkScanSummary (total_files_scanned s) (duplicate_groups_found s) (total_duplicate_files s)
                (wire_number (similarity_threshold s))
                (wire_number (total_potential_savings_mb s))
                (scan_method s) (timestamp s).

(** The result as the client reads it from the response. *)
Definition wire_result (r : ScanResult) : ScanResult :=
  mkScanResult (success r) (wire_summary (scan_summary r))
               (map wire_group (duplicate_groups r)).

(** What a callback throws: a value with a [message] ([None] when it has
    none or an empty one), or [null] or [undefined]. *)
Inductive Raised :=
| RaisedValue (message : option string)
| RaisedNullish.

(** What the browser side depends on.  An access token is taken to be a
    value [fetch] accepts in a header (no NUL, line feed or carriage
    return). *)
Record Browser := mkBrowser {
  access_token : option string;     (* [session?.access_token] *)
  fetch_rejects : option string;    (* [Some m]: [fetch] rejects with message [m],
                                       the request does not reach the handler *)
  statusText : string;              (* [response.statusText] of a 500 answer *)
  empty_body_message : string;      (* the message of [response.json()] on an empty body *)
  callback_throws : ScanResult -> option Raised
                                    (* the [onDetectionComplete] prop on a result:
                                       [None] when it returns, [Some t] when it
                                       throws [t] *)
}.

(** How a call of the service ends: the value returned or the message of
    the error thrown. *)
Inductive Outcome :=
| Returned (r : ScanResult)
| Thrown (message : string).

(** What the browser side does to the outside. *)
Inductive UiEvent :=
| Sent (req : Request)                    (* [fetch] of /functions/v1/ai-detect-duplicates,
                                             the request as the handler receives it *)
| UiLog (message : string)                (* console.error *)
| DetectionComplete (r : ScanResult).     (* the [onDetectionComplete] callback *)

(** [response.status] and [response.ok] of the handler's three answers. *)
Definition status (h : HttpResponse) : N :=
  match h with
  | Failed _ => 500
  | _ => 200
  end.

Definition ok (h : HttpResponse) : bool := ((200 <=? status h) && (status h <=? 299))%N.

(** The request [callEdgeFunction] builds for a duplicate scan, as the
    handler receives it. *)
Definition scan_request (br : Browser) (fs : list File) (threshold : float)
    (include_similar : bool) : Request :=
  mkRequest "POST"
            (Some (header_value ("Bearer " ++ Js.or_else (access_token br) "")%string))
            (inr (mkBody (Some fs) (Some threshold) (Some include_similar))).

(** [aiService.detectDuplicates(files, similarityThreshold, includeSimilar)],
    that is [callEdgeFunction('ai-detect-duplicates', ...)], against the
    handler running in world [w]: the outcome, the events of the browser and
    the events of the handler. *)
Definition detectDuplicates (br : Browser) (w : World) (fs : list File) (threshold : float)
    (include_similar : bool) : Outcome * list UiEvent * list Event :=
  let req := scan_request br fs threshold include_similar in
  match fetch_rejects br with
  | Some m =>
      (Thrown m, [Sent req; UiLog "Error calling ai-detect-duplicates:"], [])
  | None =>
      let (answer, events) := serve w req in
      if negb (ok answer) then
        (Thrown ("AI service error: " ++ Js.show_number (Some (status answer)) ++ " - "
                 ++ statusText br)%string,
         [Sent req; UiLog "Error calling ai-detect-duplicates:"], events)
      else
        match answer with
        | Data r => (Returned (wire_result r), [Sent req], events)   (* [result.data || result] *)
        | _ => (Thrown (empty_body_message br),
                [Sent req; UiLog "Error calling ai-detect-duplicates:"], events)
        end
  end.

(** The state of the component. *)
Record UiState := mkUiState {
  isScanning : bool;
  results : option ScanResult;
  error : option string;
  ui_similarityThreshold : float;
  ui_includeSimilar : bool
}.

(** The state after [useState(false)], [useState(null)], [useState(null)],
    [useState(0.9)], [useState(true)]. *)
Definition initial_state : UiState := mkUiState false None None 0.9%float true.

(** [handleScan] run to its end; [notify] tells whether the
    [onDetectionComplete] prop is given.  The callback runs inside the
    [try], after [setResults]: when it throws, the [catch] logs and sets
    the error while the result stays shown; when what it throws is [null]
    or [undefined], reading [error.message] throws in the [catch] after the
    log, so no error is set (the [finally] still runs). *)
Definition handleScan (br : Browser) (w : World) (fs : list File) (notify : bool)
    (st : UiState) : UiState * list UiEvent * list Event :=
  match fs with
  | [] =>
      (mkUiState (isScanning st) (results st) (Some "No files provided for scanning")
                 (ui_similarityThreshold st) (ui_includeSimilar st), [], [])
  | _ :: _ =>
      match detectDuplicates br w fs (ui_similarityThreshold st) (ui_includeSimilar st) with
      | (Returned r, sent, events) =>
          match (if notify then callback_throws br r else None) with
          | None =>
              (mkUiState false (Some r) None
                         (ui_similarityThreshold st) (ui_includeSimilar st),
               sent ++ (if notify then [DetectionComplete r] else []), events)
          | Some (RaisedValue m) =>
              (mkUiState false (Some r) (Some (Js.or_else m "Scan failed"))
                         (ui_similarityThreshold st) (ui_includeSimilar st),
               sent ++ [DetectionComplete r; UiLog "Duplicate detection failed:"], events)
          | Some RaisedNullish =>
              (mkUiState false (Some r) None
                         (ui_similarityThreshold st) (ui_includeSimilar st),
               sent ++ [DetectionComplete r; UiLog "Duplicate detection failed:"], events)
          end
      | (Thrown m, sent, events) =>
          (mkUiState false (results st) (Some (Js.or_else (Some m) "Scan failed"))
                     (ui_similarityThreshold st) (ui_includeSimilar st),
           sent ++ [UiLog "Duplicate detection failed:"], events)
      end
  end.

(** The requests among the events of the browser. *)
Fixpoint sent_requests (evs : list UiEvent) : list Request :=
  match evs with
  | [] => []
  | Sent req :: evs' => req :: sent_requests evs'
  | _ :: evs' => sent_requests evs'
  end.

(** ** More notions used in the statements *)

(** The number of member entries over all groups of a response. *)
Definition members_total (gs : list GroupInfo) : nat :=
  list_sum (map (fun g => List.length (gi_files g)) gs).

(** The position in [files] of the first member of a group. *)
Definition first_id (fs : list FileRef) : nat :=
  match fs with
  | r :: _ => ref_id r
  | [] => 0
  end.

(** [v >= threshold] holds in JavaScript: [v] is, or converts to, a number
    at or above the threshold. *)
Definition at_least (threshold : float) (v : Js.value) : Prop :=
  match v with
  | Js.Num x | Js.NonNum _ x => (threshold <=? x)%float = true
  | Js.Missing => False
  end.

(** References listed by increasing position. *)
Definition ascending (l : list FileRef) : Prop :=
  StronglySorted (fun x y => ref_id x < ref_id y) l.

(** The first members of the arrays of [fileHashes], array by array. *)
Definition first_ids (m : HashMap) : list nat := map (fun e => first_id (snd e)) m.

Definition is_log (e : Event) : bool :=
  match e with ConsoleLog _ => true | _ => false end.

(** The lookups and the stores among the events of the handler. *)
Definition lookups (tr : list Event) : list Event := filter is_lookup tr.

Definition stores (tr : list Event) : list Event := filter is_store tr.

(** ** Generic facts about loops and pairs *)

Section Loops.

Context {S A : Type}.

(** A property kept by the body of a loop holds when the loop ends. *)
Lemma fold_left_invariant (P : S -> Prop) (step : S -> A -> S) (l : list A) :
  forall s, P s -> (forall s a, In a l -> P s -> P (step s a)) -> P (fold_left step l s).
Proof.
  induction l as [|a l IH]; intros s Hs Hstep; simpl.
  - exact Hs.
  - apply IH.
    + apply Hstep; [left; reflexivity | exact Hs].
    + intros s' a' Hin. apply Hstep. right. exact Hin.
Qed.

End Loops.

Lemma pairs_In {A : Type} (l : list A) (x y : A) :
  In (x, y) (pairs l) -> In x l /\ In y l.
Proof.
  induction l as [|a l IH]; simpl; [tauto|].
  rewrite in_app_iff, in_map_iff. intros [[z [Hz Hin]]|Hin].
  - inversion Hz; subst. auto.
  - destruct (IH Hin). auto.
Qed.

(** The two components of a visited pair sit at different positions. *)
Lemma pairs_distinct {A B : Type} (f : A -> B) (l : list A) (x y : A) :
  NoDup (map f l) -> In (x, y) (pairs l) -> f x <> f y.
Proof.
  induction l as [|a l IH]; simpl; [tauto|].
  intros Hnd. inversion Hnd as [|? ? Hnotin Hnd']; subst.
  rewrite in_app_iff, in_map_iff. intros [[z [Hz Hin]]|Hin].
  - inversion Hz; subst. intros Heq. apply Hnotin. rewrite Heq.
    apply in_map. exact Hin.
  - apply IH; assumption.
Qed.

(** ** References *)

Lemma combine_fst {A B : Type} (l : list A) :
  forall l' : list B, List.length l = List.length l' -> map fst (combine l l') = l.
Proof.
  induction l as [|a l IH]; intros [|b l'] Hlen; simpl in *; try congruence.
  f_equal. apply IH. congruence.
Qed.

Lemma combine_snd {A B : Type} (l : list A) :
  forall l' : list B, List.length l = List.length l' -> map snd (combine l l') = l'.
Proof.
  induction l as [|a l IH]; intros [|b l'] Hlen; simpl in *; try congruence.
  f_equal. apply IH. congruence.
Qed.

Lemma refs_from_ids (fs : list File) :
  forall start, map fst (refs_from start fs) = seq start (List.length fs).
Proof.
  unfold refs_from. intros start.
  apply combine_fst. now rewrite length_seq.
Qed.

Lemma refs_NoDup (fs : list File) : NoDup (map ref_id (refs fs)).
Proof.
  unfold refs, ref_id. rewrite refs_from_ids. apply seq_NoDup.
Qed.

Lemma refs_files (fs : list File) : map ref_file (refs fs) = fs.
Proof.
  unfold refs, refs_from, ref_file.
  apply combine_snd. now rewrite length_seq.
Qed.

Lemma filter_keeps_NoDup {K V : Type} (key : V -> K) (keep : V -> bool) :
  forall vs : list V, NoDup (map key vs) -> NoDup (map key (filter keep vs)).
Proof.
  intros vs. induction vs as [|v vs IH]; simpl; intros Hnd; [constructor|].
  inversion Hnd as [|? ? Hfresh Hnd']; subst.
  destruct (keep v); simpl; [constructor|]; auto.
  intros Hin. apply Hfresh. apply in_map_iff in Hin as [x [Hx Hin]].
  apply filter_In in Hin as [Hin _]. rewrite <- Hx. now apply in_map.
Qed.

Lemma textFiles_NoDup (fs : list File) : NoDup (map ref_id (textFiles (refs fs))).
Proof. apply filter_keeps_NoDup, refs_NoDup. Qed.

(** ** The handler's two outcomes *)

Lemma serve_accepted (w : World) (req : Request) (b : Body) (fs : list File) :
  accepted w req b fs ->
  serve w req =
    (Data (build_result w fs (threshold_of b) (scan_groups w b fs)),
     scan_trace w b fs ++
     store_results w req (build_result w fs (threshold_of b) (scan_groups w b fs))).
Proof.
  intros (Hm & Hj & Hf & Hne & Hu & Hk). unfold serve.
  rewrite Hm, Hj, Hf, Hu, Hk. destruct fs as [|f fs]; [congruence|]. reflexivity.
Qed.


(** ** The second pass, one pair at a time *)

(** A pair either leaves the groups alone or is grouped. *)
Lemma compare_pair_groups ask threshold st file1 file2 :
  duplicateGroups (compare_pair ask threshold st (file1, file2)) = duplicateGroups st \/
  exists s, ask file1 file2 = Parsed s /\
    Js.geq (similarity_score s) threshold = true /\
    duplicateGroups (compare_pair ask threshold st (file1, file2)) =
      group_pair file1 file2 s (duplicateGroups st).
Proof.
  unfold compare_pair.
  destruct (existsb _ (processedFiles st)); [now left|].
  destruct (fileHash (ref_file file1) =? fileHash (ref_file file2)); [now left|].
  destruct (ask file1 file2) as [| | | |s] eqn:Hask; try (now left).
  destruct (Js.geq (similarity_score s) threshold) eqn:Hge; [|now left].
  right. exists s. auto.
Qed.

(** A property of the groups that grouping a visited pair keeps holds when
    the second pass ends. *)
Lemma similarity_pass_groups (Q : list Group -> Prop) ask threshold rs st :
  Q (duplicateGroups st) ->
  (forall gs file1 file2 s,
      In (file1, file2) (pairs (textFiles rs)) -> Q gs -> Q (group_pair file1 file2 s gs)) ->
  Q (duplicateGroups (similarity_pass ask threshold rs st)).
Proof.
  intros Hst Hstep. unfold similarity_pass.
  apply (fold_left_invariant (fun st => Q (duplicateGroups st))); [exact Hst|].
  intros s [file1 file2] Hin Hs.
  destruct (compare_pair_groups ask threshold s file1 file2) as [Heq|[d [_ [_ Heq]]]];
    rewrite Heq; auto.
Qed.

Lemma extend_length g file1 file2 s :
  List.length (files g) <= List.length (files (extend g file1 file2 s)).
Proof.
  unfold extend; simpl.
  destruct (has_name (files g) (ref_name file1));
    [destruct (has_name (files g) (ref_name file2))
    |destruct (has_name (files g ++ [file1]) (ref_name file2))];
    repeat rewrite length_app; simpl; lia.
Qed.

Lemma group_pair_Forall (P : Group -> Prop) file1 file2 s gs :
  P (mkGroup [file1; file2] [s] ai_content_similarity) ->
  (forall g, P g -> P (extend g file1 file2 s)) ->
  Forall P gs -> Forall P (group_pair file1 file2 s gs).
Proof.
  intros Hnew Hext. induction gs as [|g gs IH]; simpl; intros Hall.
  - constructor; [exact Hnew|constructor].
  - inversion Hall; subst. destruct (mentions file1 file2 g); constructor; auto.
Qed.

(** The groups of the second pass have at least two members and are all
    tagged [ai_content_similarity]. *)
Lemma similarity_pass_sizes ask threshold rs :
  Forall (fun g => 2 <= List.length (files g))
    (duplicateGroups (similarity_pass ask threshold rs (mkPassState [] [] []))).
Proof.
  apply similarity_pass_groups; [constructor|].
  intros gs file1 file2 s _. apply group_pair_Forall.
  - simpl. lia.
  - intros g Hg. pose proof (extend_length g file1 file2 s). lia.
Qed.

Lemma similarity_pass_methods ask threshold rs :
  Forall (fun g => detection_method g = ai_content_similarity)
    (duplicateGroups (similarity_pass ask threshold rs (mkPassState [] [] []))).
Proof.
  apply similarity_pass_groups; [constructor|].
  intros gs file1 file2 s _. apply group_pair_Forall; auto.
Qed.

Lemma exact_groups_sizes m :
  Forall (fun g => 2 <= List.length (files g)) (exact_groups m).
Proof.
  unfold exact_groups. apply Forall_forall. intros g Hin.
  apply in_map_iff in Hin as [e [<- He]]. apply filter_In in He as [_ He].
  apply Nat.ltb_lt in He. simpl. lia.
Qed.

Lemma exact_groups_methods m :
  Forall (fun g => detection_method g = exact_hash_match) (exact_groups m).
Proof.
  unfold exact_groups. apply Forall_forall. intros g Hin.
  apply in_map_iff in Hin as [e [<- _]]. reflexivity.
Qed.

Lemma scan_groups_split w b fs :
  scan_groups w b fs = similarity_groups w b fs ++ exact_groups (fileHashes (refs fs)).
Proof.
  unfold scan_groups, similarity_groups, detect; simpl.
  destruct (negb (openRouterKey w =? "") && include_of b); reflexivity.
Qed.

Lemma similarity_groups_sizes w b fs :
  Forall (fun g => 2 <= List.length (files g)) (similarity_groups w b fs).
Proof.
  unfold similarity_groups.
  destruct (negb (openRouterKey w =? "") && include_of b);
    [apply similarity_pass_sizes | constructor].
Qed.

Lemma similarity_groups_methods w b fs :
  Forall (fun g => detection_method g = ai_content_similarity) (similarity_groups w b fs).
Proof.
  unfold similarity_groups.
  destruct (negb (openRouterKey w =? "") && include_of b);
    [apply similarity_pass_methods | constructor].
Qed.

Lemma formatGroup_length g : List.length (gi_files (formatGroup g)) = List.length (files g).
Proof. unfold formatGroup; simpl. apply length_map. Qed.

Lemma formatGroup_method g : gi_detection_method (formatGroup g) = detection_method g.
Proof. reflexivity. Qed.

(** ** The first pass: what [fileHashes] holds *)

Lemma add_file_keys k r m :
  map fst (add_file k r m) = if in_dec string_dec k (map fst m) then map fst m else map fst m ++ [k].
Proof.
  induction m as [|[k' fs] m IH]; simpl; [reflexivity|].
  destruct (String.eqb_spec k' k) as [->|Hne].
  - destruct (string_dec k k); [reflexivity|congruence].
  - simpl. rewrite IH. destruct (string_dec k' k) as [Heq|Hne']; [congruence|].
    destruct (in_dec string_dec k (map fst m)); reflexivity.
Qed.

Lemma add_file_In k r m k' fs' :
  NoDup (map fst m) ->
  In (k', fs') (add_file k r m) ->
  (k' <> k /\ In (k', fs') m) \/
  (k' = k /\ ((exists fs, In (k, fs) m /\ fs' = fs ++ [r]) \/
              (~ In k (map fst m) /\ fs' = [r]))).
Proof.
  induction m as [|[k0 fs0] m IH]; simpl; intros Hnd.
  - intros [[= <- <-]|[]]. right. split; [reflexivity|]. right. tauto.
  - inversion Hnd as [|? ? Hnotin Hnd']; subst.
    destruct (String.eqb_spec k0 k) as [->|Hne]; simpl.
    + intros [Heq|Hin]; [inversion Heq; subst; clear Heq|].
      * right. split; [reflexivity|]. left. exists fs0. auto.
      * left. split; [|auto]. intros ->. apply Hnotin.
        change k with (fst (k, fs')). now apply in_map.
    + intros [Heq|Hin]; [inversion Heq; subst; clear Heq|].
      * left. auto.
      * destruct (IH Hnd' Hin) as [[Hk Hin']|[-> [[fs [Hin' ->]]|[Hnot ->]]]].
        -- left. auto.
        -- right. split; [reflexivity|]. left. exists fs. auto.
        -- right. split; [reflexivity|]. right. split; [|reflexivity].
           intros [Heq|Hin']; [congruence|auto].
Qed.

Lemma add_file_NoDup k r m : NoDup (map fst m) -> NoDup (map fst (add_file k r m)).
Proof.
  intros Hnd. rewrite add_file_keys.
  destruct (in_dec string_dec k (map fst m)) as [|Hnotin]; [exact Hnd|].
  apply NoDup_app; [exact Hnd | repeat constructor; simpl; tauto |].
  intros x Hx [<-|[]]. auto.
Qed.

Lemma add_file_has k r m : exists fs, In (k, fs) (add_file k r m).
Proof.
  induction m as [|[k0 fs0] m IH]; simpl.
  - eexists. left. reflexivity.
  - destruct (String.eqb_spec k0 k) as [Heq|Hne].
    + subst k0. eexists. left. reflexivity.
    + destruct IH as [fs Hfs]. exists fs. now right.
Qed.

Lemma add_file_keep k r m k' fs :
  In (k', fs) m -> k' <> k -> In (k', fs) (add_file k r m).
Proof.
  induction m as [|[k0 fs0] m IH]; simpl; [tauto|].
  intros [Heq|Hin] Hne.
  - inversion Heq; subst. apply String.eqb_neq in Hne. rewrite Hne. now left.
  - destruct (k0 =? k); right; auto.
Qed.

Lemma fileHashes_snoc l r :
  fileHashes (l ++ [r]) = add_file (fileHash (ref_file r)) r (fileHashes l).
Proof. unfold fileHashes. rewrite fold_left_app. reflexivity. Qed.

Lemma filter_none {A : Type} (p : A -> bool) (l : list A) :
  (forall x, In x l -> p x = false) -> filter p l = [].
Proof.
  induction l as [|a l IH]; simpl; intros H; [reflexivity|].
  rewrite (H a (or_introl eq_refl)). apply IH. intros x Hx. apply H. now right.
Qed.

Lemma fileHashes_spec l : HashesOf l (fileHashes l).
Proof.
  induction l as [|r l IH] using rev_ind.
  - split; simpl; [constructor | tauto | tauto].
  - rewrite fileHashes_snoc. destruct IH as [Hnd Heq Hex].
    set (k := fileHash (ref_file r)). split.
    + now apply add_file_NoDup.
    + intros k' fs' Hin. rewrite filter_app. simpl. unfold has_key at 2. fold k.
      destruct (add_file_In _ _ _ _ _ Hnd Hin)
        as [[Hk Hin']|[-> [[fs [Hin' ->]]|[Hnotin ->]]]].
      * rewrite String.eqb_sym. apply String.eqb_neq in Hk. rewrite Hk.
        rewrite app_nil_r. now apply Heq.
      * rewrite String.eqb_refl. f_equal. now apply Heq.
      * rewrite String.eqb_refl. rewrite filter_none; [reflexivity|].
        intros x Hx. unfold has_key. apply String.eqb_neq. intros Hk.
        destruct (Hex x Hx) as [fs Hfs]. apply Hnotin. rewrite <- Hk.
        change (fileHash (ref_file x)) with (fst (fileHash (ref_file x), fs)).
        now apply in_map.
    + intros x Hx. apply in_app_iff in Hx as [Hx|[<-|[]]].
      * destruct (Hex x Hx) as [fs Hfs].
        destruct (String.eqb_spec (fileHash (ref_file x)) k) as [Hk|Hk].
        -- rewrite Hk. apply add_file_has.
        -- exists fs. now apply add_file_keep.
      * apply add_file_has.
Qed.

(** ** Identity of group members *)

Lemma In_refs_unique (l : list FileRef) (x y : FileRef) :
  NoDup (map ref_id l) -> In x l -> In y l -> ref_id x = ref_id y -> x = y.
Proof.
  induction l as [|a l IH]; simpl; [tauto|].
  intros Hnd. inversion Hnd as [|? ? Hnotin Hnd']; subst.
  intros [->|Hx] [->|Hy] Heq; auto.
  - exfalso. apply Hnotin. rewrite Heq. now apply in_map.
  - exfalso. apply Hnotin. rewrite <- Heq. now apply in_map.
Qed.

Lemma has_name_false fs n r :
  has_name fs n = false -> In r fs -> ref_name r <> n.
Proof.
  unfold has_name. intros Hno Hin Heq.
  assert (existsb (fun f => ref_name f =? n) fs = true) as Hyes.
  { apply existsb_exists. exists r. split; [exact Hin|]. now apply String.eqb_eq. }
  congruence.
Qed.

Lemma NoDup_snoc {A : Type} (l : list A) (x : A) :
  NoDup l -> ~ In x l -> NoDup (l ++ [x]).
Proof.
  intros Hnd Hnotin. apply NoDup_app; [exact Hnd | repeat constructor; simpl; tauto |].
  intros y Hy [<-|[]]. auto.
Qed.

Lemma members_ok_push l fs r :
  NoDup (map ref_id l) -> In r l -> members_ok l fs ->
  has_name fs (ref_name r) = false -> members_ok l (fs ++ [r]).
Proof.
  intros Hl Hr [Hnd Hsub] Hno. split.
  - rewrite map_app. simpl. apply NoDup_snoc; [exact Hnd|].
    intros Hin. apply in_map_iff in Hin as [x [Hid Hx]].
    assert (x = r) as -> by (apply (In_refs_unique l); auto).
    now apply (has_name_false _ _ _ Hno Hx).
  - intros x Hx. apply in_app_iff in Hx as [Hx|[<-|[]]]; auto.
Qed.

Lemma members_ok_extend l g file1 file2 s :
  NoDup (map ref_id l) -> In file1 l -> In file2 l ->
  members_ok l (files g) -> members_ok l (files (extend g file1 file2 s)).
Proof.
  intros Hl H1 H2 Hg. unfold extend; simpl.
  assert (members_ok l (if has_name (files g) (ref_name file1)
                        then files g else files g ++ [file1])) as Hg1.
  { destruct (has_name (files g) (ref_name file1)) eqn:Hn; [exact Hg|].
    now apply members_ok_push. }
  destruct (has_name _ (ref_name file2)) eqn:Hn2; [exact Hg1|].
  now apply members_ok_push.
Qed.

Lemma similarity_pass_members ask threshold fs :
  Forall (fun g => members_ok (refs fs) (files g))
    (duplicateGroups (similarity_pass ask threshold (refs fs) (mkPassState [] [] []))).
Proof.
  apply similarity_pass_groups; [constructor|].
  intros gs file1 file2 s Hin.
  pose proof (pairs_distinct ref_id _ _ _ (textFiles_NoDup fs) Hin) as Hne.
  apply pairs_In in Hin as [H1 H2].
  apply filter_In in H1 as [H1 _]. apply filter_In in H2 as [H2 _].
  apply group_pair_Forall.
  - split; simpl.
    + constructor; [simpl; intuition congruence|].
      constructor; [simpl; tauto|constructor].
    + intros r [<-|[<-|[]]]; assumption.
  - intros g. apply members_ok_extend; auto using refs_NoDup.
Qed.

Lemma similarity_groups_members w b fs :
  Forall (fun g => members_ok (refs fs) (files g)) (similarity_groups w b fs).
Proof.
  unfold similarity_groups.
  destruct (negb (openRouterKey w =? "") && include_of b);
    [apply similarity_pass_members | constructor].
Qed.

Lemma exact_groups_members fs :
  Forall (fun g => members_ok (refs fs) (files g)) (exact_groups (fileHashes (refs fs))).
Proof.
  unfold exact_groups. apply Forall_forall. intros g Hin.
  apply in_map_iff in Hin as [[k l] [<- He]]. apply filter_In in He as [He _].
  simpl. rewrite (bucket_eq _ _ (fileHashes_spec (refs fs)) _ _ He). split.
  - apply filter_keeps_NoDup, refs_NoDup.
  - intros r Hr. now apply filter_In in Hr as [Hr _].
Qed.

(** ** Membership counts *)

Lemma filter_at_most_one {A K : Type} (key : A -> K) (p : A -> bool) (l : list A) :
  NoDup (map key l) ->
  (forall x y, In x l -> In y l -> p x = true -> p y = true -> key x = key y) ->
  List.length (filter p l) <= 1.
Proof.
  induction l as [|a l IH]; simpl; intros Hnd Hsame; [lia|].
  inversion Hnd as [|? ? Hnotin Hnd']; subst.
  destruct (p a) eqn:Hpa.
  - rewrite filter_none; [simpl; lia|].
    intros x Hx. destruct (p x) eqn:Hpx; [|reflexivity].
    exfalso. apply Hnotin. rewrite (Hsame a x); auto. now apply in_map.
  - apply IH; auto.
Qed.

Lemma filter_map_comm {A B : Type} (f : A -> B) (p : B -> bool) (l : list A) :
  filter p (map f l) = map f (filter (fun x => p (f x)) l).
Proof.
  induction l as [|a l IH]; simpl; [reflexivity|].
  destruct (p (f a)); simpl; now rewrite IH.
Qed.

Lemma member_In i g :
  member i g = true -> exists r, In r (files g) /\ ref_id r = i.
Proof.
  unfold member. intros H. apply existsb_exists in H as [j [Hj Heq]].
  apply Nat.eqb_eq in Heq. subst j. apply in_map_iff in Hj as [r [Hr Hin]]. eauto.
Qed.

(** A file is a member of at most one exact group. *)
Lemma exact_groups_at_most_one fs i :
  List.length (groups_of i (exact_groups (fileHashes (refs fs)))) <= 1.
Proof.
  unfold groups_of, exact_groups.
  pose proof (fileHashes_spec (refs fs)) as [Hnd Heq _].
  rewrite filter_map_comm, length_map.
  apply (filter_at_most_one fst).
  - now apply filter_keeps_NoDup.
  - intros [k1 l1] [k2 l2] H1 H2 M1 M2. simpl.
    apply filter_In in H1 as [H1 _]. apply filter_In in H2 as [H2 _].
    apply member_In in M1 as [r1 [R1 I1]]. apply member_In in M2 as [r2 [R2 I2]].
    simpl in R1, R2. rewrite (Heq _ _ H1) in R1. rewrite (Heq _ _ H2) in R2.
    apply filter_In in R1 as [R1 K1]. apply filter_In in R2 as [R2 K2].
    assert (r1 = r2) as -> by (apply (In_refs_unique (refs fs)); auto using refs_NoDup; congruence).
    unfold has_key in K1, K2. apply String.eqb_eq in K1, K2. congruence.
Qed.

(** ** The exact group of a key *)

Lemma exact_groups_app m1 m2 : exact_groups (m1 ++ m2) = exact_groups m1 ++ exact_groups m2.
Proof. unfold exact_groups. now rewrite filter_app, map_app. Qed.

Lemma exact_groups_keys l m g r k :
  (forall k' fs', In (k', fs') m -> fs' = filter (has_key k') l) ->
  ~ In k (map fst m) -> In g (exact_groups m) -> In r (files g) ->
  has_key k r = false.
Proof.
  intros Heq Hk Hg Hr. unfold exact_groups in Hg.
  apply in_map_iff in Hg as [[k' l'] [<- He]]. apply filter_In in He as [He _].
  simpl in Hr. rewrite (Heq _ _ He) in Hr. apply filter_In in Hr as [_ Hr].
  unfold has_key in *. apply String.eqb_eq in Hr. apply String.eqb_neq.
  intros Hkk. apply Hk. rewrite <- Hkk, Hr.
  change k' with (fst (k', l')). now apply in_map.
Qed.

Lemma fileHashes_entry fs k :
  2 <= List.length (filter (has_key k) (refs fs)) ->
  exists m1 m2,
    fileHashes (refs fs) = m1 ++ (k, filter (has_key k) (refs fs)) :: m2 /\
    ~ In k (map fst m1) /\ ~ In k (map fst m2).
Proof.
  intros Hlen. pose proof (fileHashes_spec (refs fs)) as [Hnd Heq Hex].
  destruct (filter (has_key k) (refs fs)) as [|r rest] eqn:Hf; [simpl in Hlen; lia|].
  assert (In r (filter (has_key k) (refs fs))) as Hr by (rewrite Hf; now left).
  apply filter_In in Hr as [Hr Hk]. unfold has_key in Hk. apply String.eqb_eq in Hk.
  destruct (Hex r Hr) as [l Hl]. rewrite Hk in Hl.
  pose proof (Heq _ _ Hl) as Hl'. rewrite Hf in Hl'. subst l.
  apply in_split in Hl as [m1 [m2 Hm]]. exists m1, m2. split; [exact Hm|].
  rewrite Hm, map_app in Hnd. simpl in Hnd.
  apply NoDup_remove_2 in Hnd. rewrite in_app_iff in Hnd. tauto.
Qed.

(** ** File names inside a similarity group *)

Lemma name_shape_push fs r :
  name_shape fs -> has_name fs (ref_name r) = false -> name_shape (fs ++ [r]).
Proof.
  intros (a & b & rest & -> & Ha & Hb) Hno.
  exists a, b, (rest ++ [r]). split; [reflexivity|].
  assert (forall x, In x (a :: b :: rest) -> ref_name x <> ref_name r) as Hne
    by (intros x Hx; exact (has_name_false _ _ _ Hno Hx)).
  split.
  - change (a :: rest ++ [r]) with ((a :: rest) ++ [r]). rewrite map_app. simpl map at 2.
    apply NoDup_snoc; [exact Ha|]. intros Hin.
    apply in_map_iff in Hin as [x [Hx Hin]]. apply (Hne x); [|exact Hx].
    destruct Hin as [<-|Hin]; [now left|now right; right].
  - change (b :: rest ++ [r]) with ((b :: rest) ++ [r]). rewrite map_app. simpl map at 2.
    apply NoDup_snoc; [exact Hb|]. intros Hin.
    apply in_map_iff in Hin as [x [Hx Hin]]. apply (Hne x); [|exact Hx].
    destruct Hin as [<-|Hin]; [now right; left|now right; right].
Qed.

Lemma name_shape_extend g file1 file2 s :
  name_shape (files g) -> name_shape (files (extend g file1 file2 s)).
Proof.
  intros Hg. unfold extend; simpl.
  assert (name_shape (if has_name (files g) (ref_name file1)
                      then files g else files g ++ [file1])) as Hg1.
  { destruct (has_name (files g) (ref_name file1)) eqn:Hn; [exact Hg|].
    now apply name_shape_push. }
  destruct (has_name _ (ref_name file2)) eqn:Hn2; [exact Hg1|].
  now apply name_shape_push.
Qed.

Lemma similarity_pass_names ask threshold rs :
  Forall (fun g => name_shape (files g))
    (duplicateGroups (similarity_pass ask threshold rs (mkPassState [] [] []))).
Proof.
  apply similarity_pass_groups; [constructor|].
  intros gs file1 file2 s _. apply group_pair_Forall.
  - exists file1, file2, []. simpl. repeat split; repeat constructor; simpl; tauto.
  - intros g. apply name_shape_extend.
Qed.

(** ** The events of the second pass *)

Lemma calls_app tr1 tr2 : calls (tr1 ++ tr2) = calls tr1 ++ calls tr2.
Proof.
  induction tr1 as [|e tr1 IH]; simpl; [reflexivity|].
  destruct e; simpl; now rewrite IH.
Qed.

Lemma existsb_eqb_false k l : existsb (String.eqb k) l = false -> ~ In k l.
Proof.
  intros Hno Hin.
  assert (existsb (String.eqb k) l = true) as Hyes.
  { apply existsb_exists. exists k. split; [exact Hin|apply String.eqb_refl]. }
  congruence.
Qed.

Lemma compare_pair_TraceOk ask threshold st p :
  TraceOk st -> TraceOk (compare_pair ask threshold st p).
Proof.
  intros [Hev Hproc Hnd]. destruct p as [file1 file2]. unfold compare_pair.
  destruct (existsb _ (processedFiles st)) eqn:Hseen; [now split|].
  apply existsb_eqb_false in Hseen.
  destruct (fileHash (ref_file file1) =? fileHash (ref_file file2)).
  { split; simpl; auto. intros p Hp. apply in_app_iff. left. auto. }
  assert (TraceOk (mkPassState (duplicateGroups st)
                     (processedFiles st ++ [pair_key file1 file2])
                     (trace st ++ [CollaboratorCall (similarityPrompt file1 file2)]))) as Hcalled.
  { split; simpl.
    - apply Forall_app. split; [exact Hev|repeat constructor].
    - intros p. rewrite calls_app. simpl. rewrite !in_app_iff.
      intros [Hp|[<-|[]]]; [left; auto|right; now left].
    - rewrite calls_app, map_app. simpl. apply NoDup_snoc; [exact Hnd|].
      intros Hin. apply in_map_iff in Hin as [p [Hkey Hp]].
      apply Hseen.
      change (pair_key file1 file2) with (prompt_key (similarityPrompt file1 file2)).
      rewrite <- Hkey. auto. }
  assert (forall gs m, TraceOk (mkPassState gs
                     (processedFiles st ++ [pair_key file1 file2])
                     ((trace st ++ [CollaboratorCall (similarityPrompt file1 file2)])
                        ++ [ConsoleLog m]))) as Hlogged.
  { destruct Hcalled as [Hev' Hproc' Hnd']. simpl in *. intros gs m. split; simpl.
    - apply Forall_app. split; [exact Hev'|repeat constructor].
    - intros p. rewrite calls_app. simpl. rewrite app_nil_r. apply Hproc'.
    - rewrite calls_app. simpl. rewrite app_nil_r. exact Hnd'. }
  assert (forall gs, TraceOk (mkPassState gs
                     (processedFiles st ++ [pair_key file1 file2])
                     (trace st ++ [CollaboratorCall (similarityPrompt file1 file2)]))) as Hany.
  { destruct Hcalled as [Hev' Hproc' Hnd']. intros gs. split; assumption. }
  destruct (ask file1 file2) as [| | | |s]; auto.
  destruct (Js.geq (similarity_score s) threshold); auto.
Qed.

Lemma similarity_pass_TraceOk ask threshold rs :
  TraceOk (similarity_pass ask threshold rs (mkPassState [] [] [])).
Proof.
  unfold similarity_pass. apply fold_left_invariant.
  - split; simpl; [constructor | tauto | constructor].
  - intros st p _. apply compare_pair_TraceOk.
Qed.

Lemma detect_TraceOk w threshold inc rs :
  Forall collaborator_event (trace (detect w threshold inc rs)) /\
  NoDup (map prompt_key (calls (trace (detect w threshold inc rs)))).
Proof.
  unfold detect; simpl.
  destruct (negb (openRouterKey w =? "") && inc).
  - destruct (similarity_pass_TraceOk (collaborator w) threshold rs). auto.
  - simpl. split; constructor.
Qed.

(** ** What the groups depend on *)






(** ** The events after the result is built *)

Lemma store_results_without_header w req r :
  Js.truthy (authorization req) = false -> store_results w req r = [].
Proof. unfold store_results. now intros ->. Qed.

Lemma store_results_with_header w req r :
  Js.truthy (authorization req) = true ->
  exists rest,
    store_results w req r =
      UserLookup (Js.remove_first "Bearer " (Js.show_string (authorization req))) :: rest /\
    filter is_lookup rest = [] /\
    List.length (filter is_store rest) <= 1 /\
    calls rest = [].
Proof.
  unfold store_results. intros ->. eexists. split; [reflexivity|].
  destruct (auth_user w _) as [m| |id]; simpl; auto.
  destruct (Js.truthy id); simpl; auto.
  destruct (store_rejects w); simpl; auto.
Qed.

Lemma store_results_calls w req r : calls (store_results w req r) = [].
Proof.
  destruct (Js.truthy (authorization req)) eqn:Hh.
  - destruct (store_results_with_header w req r Hh) as (rest & -> & _ & _ & Hc).
    simpl. exact Hc.
  - now rewrite store_results_without_header.
Qed.

(** ** The members of the groups are the input descriptors *)

Lemma refs_from_nth fs :
  forall start i f,
    In (i, f) (refs_from start fs) -> start <= i /\ nth_error fs (i - start) = Some f.
Proof.
  unfold refs_from. induction fs as [|f0 fs IH]; simpl; intros start i f Hin; [tauto|].
  destruct Hin as [Heq|Hin].
  - inversion Heq; subst. rewrite Nat.sub_diag. auto.
  - destruct (IH (S start) i f Hin) as [Hle Hnth]. split; [lia|].
    replace (i - start) with (S (i - S start)) by lia. exact Hnth.
Qed.

Lemma refs_nth fs r : In r (refs fs) -> nth_error fs (ref_id r) = Some (ref_file r).
Proof.
  destruct r as [i f]. intros Hin. destruct (refs_from_nth fs 0 i f Hin) as [_ Hnth].
  now rewrite Nat.sub_0_r in Hnth.
Qed.

Lemma scan_groups_from_input w b fs :
  Forall (fun g => Forall (fun m => nth_error fs (ref_id m) = Some (ref_file m)) (files g))
         (scan_groups w b fs).
Proof.
  rewrite scan_groups_split. apply Forall_app. split.
  - eapply Forall_impl; [|apply similarity_groups_members]. intros g [_ Hsub].
    apply Forall_forall. intros m Hm. apply refs_nth. auto.
  - eapply Forall_impl; [|apply exact_groups_members]. intros g [_ Hsub].
    apply Forall_forall. intros m Hm. apply refs_nth. auto.
Qed.

(** ** The scenarios of the specification *)

(** Two files with one hash: one exact group. *)
Example scenario_A :
  map (fun g => (gi_detection_method g, map name (gi_files g), gi_similarity_score g))
      (response_groups
         (fst (serve (Sample.world (Scans.always 0.95%float) Scans.t0)
                     (Sample.post None [Sample.a_pdf; Sample.b_pdf] None None))))
  = [(exact_hash_match, ["a.pdf"; "b.pdf"], Js.Num 1%float)].
Proof. vm_compute. reflexivity. Qed.

(** Two files with content and different hashes, scored 0.95: one similarity
    group under the default threshold, none under 0.97. *)
Example scenario_C :
  map (fun g => (gi_detection_method g, map name (gi_files g), gi_similarity_score g))
      (response_groups
         (fst (serve (Sample.world (Scans.always 0.95%float) Scans.t0)
                     (Sample.post None [Scans.a_txt; Scans.c_txt] None None))))
  = [(ai_content_similarity, ["a.txt"; "c.txt"], Js.Num 0.95%float)].
Proof. vm_compute. reflexivity. Qed.

Example scenario_D :
  response_groups
    (fst (serve (Sample.world (Scans.always 0.95%float) Scans.t0)
                (Sample.post None [Scans.a_txt; Scans.c_txt] (Some 0.97%float) None)))
  = [].
Proof. vm_compute. reflexivity. Qed.

(** The failed pair of the sample is skipped and the later pairs are still
    grouped. *)
Example flaky_scan_groups :
  map (fun g => map ref_id (files g))
      (scan_groups (Sample.world Scans.flaky Scans.t0)
                   (Scans.body Scans.three_texts) Scans.three_texts) = [[0; 2; 1]].
Proof. vm_compute. reflexivity. Qed.

(** * Claims *)

(** C2, as the code has it: a request whose [files] array is empty is
    refused; the handler answers 500 with the message "Files array is
    required" and performs no scan. *)
Theorem empty_files_refused (w : World) (req : Request) (b : Body) :
  (method req =? "OPTIONS") = false ->
  json req = inr b ->
  body_files b = Some [] ->
  serve w req = failed "Files array is required".
Proof.
  intros Hm Hj Hf. unfold serve. now rewrite Hm, Hj, Hf.
Qed.

Lemma empty_files_refused_witness :
  serve (Sample.world (Scans.always 0.95%float) Scans.t0) (Sample.post None [] None None)
  = failed "Files array is required".
Proof.
  apply (empty_files_refused _ _ (mkBody (Some []) None None)); reflexivity.
Defined.

(** C2, counterexample: the scan of an empty list fails with "Files array
    is required"; it does not return a ScanResult. *)
Lemma empty_files_not_a_result :
  serve (Sample.world (Scans.always 0.95%float) Scans.t0) (Sample.post None [] None None)
  = (Failed "Files array is required",
     [ConsoleLog "Duplicate detection error: Files array is required"]) /\
  (forall r, fst (serve (Sample.world (Scans.always 0.95%float) Scans.t0)
                        (Sample.post None [] None None)) <> Data r).
Proof. split; [vm_compute; reflexivity|]. intros r. vm_compute. discriminate. Qed.

(** C6: with [includeSimilar] false no group of the response is tagged
    [ai_content_similarity], whatever the collaborator would answer, and
    the collaborator is not called. *)
Theorem no_similarity_groups_when_disabled (w : World) (req : Request) (b : Body)
    (fs : list File) :
  accepted w req b fs ->
  includeSimilar b = Some false ->
  exists r tr, serve w req = (Data r, tr) /\
    Forall (fun g => gi_detection_method g <> ai_content_similarity) (duplicate_groups r) /\
    calls tr = [].
Proof.
  intros Hok Hinc. rewrite (serve_accepted w req b fs Hok). eexists. eexists.
  split; [reflexivity|].
  assert (similarity_groups w b fs = []) as Hsim.
  { unfold similarity_groups, include_of. rewrite Hinc. now rewrite andb_false_r. }
  assert (scan_trace w b fs = []) as Htr.
  { unfold scan_trace, detect, include_of. rewrite Hinc. now rewrite andb_false_r. }
  split.
  - simpl. unfold formattedGroups. rewrite scan_groups_split, Hsim. simpl.
    apply Forall_forall. intros g Hg. apply in_map_iff in Hg as [g0 [<- Hg0]].
    rewrite formatGroup_method.
    pose proof (exact_groups_methods (fileHashes (refs fs))) as Hall.
    rewrite Forall_forall in Hall. rewrite (Hall g0 Hg0). discriminate.
  - rewrite Htr. simpl. apply store_results_calls.
Qed.

Lemma no_similarity_groups_when_disabled_witness :
  exists r tr,
    serve (Sample.world (Scans.always 1%float) Scans.t0)
          (Sample.post None Scans.overlap None (Some false)) = (Data r, tr) /\
    Forall (fun g => gi_detection_method g <> ai_content_similarity) (duplicate_groups r) /\
    calls tr = [].
Proof.
  apply (no_similarity_groups_when_disabled _ _
           (mkBody (Some Scans.overlap) None (Some false)) Scans.overlap).
  - accept.
  - reflexivity.
Defined.

(** C9: every group of the response has at least two member files. *)
Theorem groups_have_two_members (w : World) (req : Request) (b : Body) (fs : list File) :
  accepted w req b fs ->
  exists r tr, serve w req = (Data r, tr) /\
    Forall (fun g => 2 <= List.length (gi_files g)) (duplicate_groups r).
Proof.
  intros Hok. rewrite (serve_accepted w req b fs Hok). eexists. eexists.
  split; [reflexivity|]. simpl. unfold formattedGroups.
  apply Forall_forall. intros g Hg. apply in_map_iff in Hg as [g0 [<- Hg0]].
  rewrite formatGroup_length. rewrite scan_groups_split in Hg0.
  apply in_app_iff in Hg0 as [Hg0|Hg0].
  - pose proof (similarity_groups_sizes w b fs) as Hall.
    rewrite Forall_forall in Hall. now apply Hall.
  - pose proof (exact_groups_sizes (fileHashes (refs fs))) as Hall.
    rewrite Forall_forall in Hall. now apply Hall.
Qed.

Lemma groups_have_two_members_witness :
  exists r tr,
    serve (Sample.world (Scans.always 0.95%float) Scans.t0)
          (Sample.post None Scans.overlap None None) = (Data r, tr) /\
    Forall (fun g => 2 <= List.length (gi_files g)) (duplicate_groups r).
Proof.
  apply (groups_have_two_members _ _ (Scans.body Scans.overlap) Scans.overlap).
  accept.
Defined.

(** C1, counterexample: [a.txt] and [a-copy.bin] carry the same hash and
    [a.txt] is similar to [c.txt]; the file at position 0 is a member of the
    similarity group and of the exact group. *)
Lemma overlap_file_in_two_groups :
  map (fun g => map ref_id (files g))
      (scan_groups (Sample.world (Scans.always 0.95%float) Scans.t0)
                   (Scans.body Scans.overlap) Scans.overlap) = [[0; 2]; [0; 1]] /\
  ~ each_file_in_at_most_one_group
      (scan_groups (Sample.world (Scans.always 0.95%float) Scans.t0)
                   (Scans.body Scans.overlap) Scans.overlap).
Proof.
  split; [vm_compute; reflexivity|].
  intros H. specialize (H 0). vm_compute in H. lia.
Qed.

(** C1, as the code has it: a file occurs at most once among the members
    of one group and is a member of at most one [exact_hash_match] group
    (it can be a member of [ai_content_similarity] groups besides). *)
Theorem file_membership (w : World) (b : Body) (fs : list File) :
  Forall (fun g => NoDup (map ref_id (files g))) (scan_groups w b fs) /\
  forall i, List.length (filter is_exact (groups_of i (scan_groups w b fs))) <= 1.
Proof.
  rewrite scan_groups_split. split.
  - apply Forall_app. split.
    + eapply Forall_impl; [|apply similarity_groups_members]. now intros g [Hnd _].
    + eapply Forall_impl; [|apply exact_groups_members]. now intros g [Hnd _].
  - intros i. unfold groups_of. rewrite !filter_app, length_app.
    rewrite (filter_none is_exact (filter (member i) (similarity_groups w b fs))).
    + simpl. etransitivity; [apply filter_length_le|].
      apply exact_groups_at_most_one.
    + intros g Hg. apply filter_In in Hg as [Hg _].
      pose proof (similarity_groups_methods w b fs) as Hall.
      rewrite Forall_forall in Hall. unfold is_exact. now rewrite (Hall g Hg).
Qed.

(** C5: the key of a file is its hash when it has one and the string built
    from its name, size and mime type otherwise; a key that at least two
    files have gives exactly one group of the scan, tagged
    [exact_hash_match], with score 1.0, whose members are the files of that
    key in the order of the input; no other exact group has a member with
    that key. *)
Theorem exact_group_per_shared_key (w : World) (b : Body) (fs : list File) (k : string) :
  2 <= List.length (filter (has_key k) (refs fs)) ->
  (forall f, fileHash f =
     match hash f with
     | Some h => if h =? "" then name_size_mime f else h
     | None => name_size_mime f
     end) /\
  exists before g after,
    scan_groups w b fs = before ++ g :: after /\
    files g = filter (has_key k) (refs fs) /\
    detection_method g = exact_hash_match /\
    gi_detection_method (formatGroup g) = exact_hash_match /\
    gi_similarity_score (formatGroup g) = Js.Num 1%float /\
    Forall (fun g' => detection_method g' = exact_hash_match ->
                      Forall (fun r => has_key k r = false) (files g'))
           (before ++ after).
Proof.
  intros Hlen. split.
  { intros f. unfold fileHash, Js.or_else. destruct (hash f); reflexivity. }
  destruct (fileHashes_entry fs k Hlen) as (m1 & m2 & Hm & Hk1 & Hk2).
  pose proof (fileHashes_spec (refs fs)) as [_ Heq _].
  exists (similarity_groups w b fs ++ exact_groups m1),
         (mkGroup (filter (has_key k) (refs fs)) [exact_details] exact_hash_match),
         (exact_groups m2).
  split.
  { rewrite scan_groups_split, Hm, exact_groups_app, <- app_assoc. f_equal. f_equal.
    unfold exact_groups at 1. simpl.
    destruct (Nat.ltb_spec 1 (List.length (filter (has_key k) (refs fs)))); [reflexivity|lia]. }
  repeat (split; [reflexivity|]).
  rewrite <- app_assoc. apply Forall_app. split; [|apply Forall_app; split].
  - eapply Forall_impl; [|apply similarity_groups_methods].
    intros g Hai Hex. congruence.
  - apply Forall_forall. intros g Hg _. apply Forall_forall. intros r Hr.
    apply (exact_groups_keys (refs fs) m1 g r k); auto.
    intros k' fs' Hin. apply Heq. rewrite Hm. apply in_app_iff. now left.
  - apply Forall_forall. intros g Hg _. apply Forall_forall. intros r Hr.
    apply (exact_groups_keys (refs fs) m2 g r k); auto.
    intros k' fs' Hin. apply Heq. rewrite Hm. apply in_app_iff. right. now right.
Qed.

Lemma exact_group_per_shared_key_witness :
  exists before g after,
    scan_groups (Sample.world (Scans.always 0.95%float) Scans.t0)
                (Scans.body Scans.overlap) Scans.overlap = before ++ g :: after /\
    files g = filter (has_key "h1") (refs Scans.overlap) /\
    detection_method g = exact_hash_match /\
    gi_detection_method (formatGroup g) = exact_hash_match /\
    gi_similarity_score (formatGroup g) = Js.Num 1%float /\
    Forall (fun g' => detection_method g' = exact_hash_match ->
                      Forall (fun r => has_key "h1" r = false) (files g'))
           (before ++ after).
Proof.
  apply (exact_group_per_shared_key
           (Sample.world (Scans.always 0.95%float) Scans.t0)
           (Scans.body Scans.overlap) Scans.overlap "h1").
  vm_compute. lia.
Defined.

(** C10, counterexample: two different descriptors named [notes.txt] are
    both members of an [ai_content_similarity] group. *)
Lemma same_name_both_in_similarity_group :
  fileName Scans.notes_v1 = fileName Scans.notes_v2 /\
  Scans.notes_v1 <> Scans.notes_v2 /\
  map (fun g => (detection_method g, files g))
      (scan_groups (Sample.world (Scans.always 0.95%float) Scans.t0)
                   (Scans.body Scans.same_name) Scans.same_name)
  = [(ai_content_similarity, [(0, Scans.notes_v1); (1, Scans.notes_v2)])].
Proof.
  split; [reflexivity|]. split; [discriminate|]. vm_compute. reflexivity.
Qed.

(** C10, as the code has it: the second pass tells files apart by
    [fileName] only.  The collaborator is called at most once per key
    [`${name1}_${name2}`], and a file is pushed on an existing similarity
    group only when no member has its name: the members of a similarity
    group are the pair that created it followed by the files pushed later,
    and two members with one name can only be the two files of that pair. *)
Theorem similarity_pass_by_file_name (w : World) (b : Body) (fs : list File) :
  NoDup (map prompt_key (calls (scan_trace w b fs))) /\
  Forall (fun g => detection_method g = ai_content_similarity /\
                   exists file1 file2 pushed,
                     files g = file1 :: file2 :: pushed /\
                     NoDup (map ref_name (file1 :: pushed)) /\
                     NoDup (map ref_name (file2 :: pushed)))
         (similarity_groups w b fs) /\
  scan_groups w b fs = similarity_groups w b fs ++ exact_groups (fileHashes (refs fs)).
Proof.
  split; [apply detect_TraceOk|]. split; [|apply scan_groups_split].
  apply Forall_forall. intros g Hg.
  pose proof (similarity_groups_methods w b fs) as Hm. rewrite Forall_forall in Hm.
  split; [now apply Hm|].
  unfold similarity_groups in Hg.
  destruct (negb (openRouterKey w =? "") && include_of b); [|destruct Hg].
  pose proof (similarity_pass_names (collaborator w) (threshold_of b) (refs fs)) as Hn.
  rewrite Forall_forall in Hn. exact (Hn g Hg).
Qed.



(** C7, counterexample: a scan requested with an authorization header looks
    the user up at the auth service and posts the result to
    [ai_analysis_results]. *)
Lemma scan_with_header_stores_result :
  filter (fun e => is_lookup e || is_store e)
         (snd (serve (Sample.world (Scans.always 0.95%float) Scans.t0)
                     (Sample.post (Some "Bearer token-1") [Sample.a_pdf; Sample.b_pdf]
                                  None None)))
  = [UserLookup "token-1";
     StoreResult "user-1"
       (build_result (Sample.world (Scans.always 0.95%float) Scans.t0)
          [Sample.a_pdf; Sample.b_pdf] 0.9%float
          (scan_groups (Sample.world (Scans.always 0.95%float) Scans.t0)
             (Scans.body [Sample.a_pdf; Sample.b_pdf]) [Sample.a_pdf; Sample.b_pdf]))
       Scans.t0] /\
  ~ only_collaborator_io
      (snd (serve (Sample.world (Scans.always 0.95%float) Scans.t0)
                  (Sample.post (Some "Bearer token-1") [Sample.a_pdf; Sample.b_pdf]
                               None None))).
Proof.
  split; [vm_compute; reflexivity|].
  unfold only_collaborator_io. intros H. vm_compute in H.
  inversion H as [|e l He Hl]; subst. exact He.
Qed.

(** C7, as the code has it.  The input is only read: every member of every
    group is the descriptor found at its position in [files].  The I/O of a
    scan is the collaborator calls of the second pass (with their warnings)
    followed by what the authorization header asks for: nothing without a
    header; with one, a lookup of the user for the token of the header and
    then, exactly when the lookup gives a non-empty user id, one post of
    the returned result to [ai_analysis_results]. *)
Theorem scan_io (w : World) (req : Request) (b : Body) (fs : list File) :
  accepted w req b fs ->
  exists r post,
    serve w req = (Data r, scan_trace w b fs ++ post) /\
    Forall (fun g => Forall (fun m => nth_error fs (ref_id m) = Some (ref_file m)) (files g))
           (scan_groups w b fs) /\
    only_collaborator_io (scan_trace w b fs) /\
    (Js.truthy (authorization req) = false -> post = []) /\
    (Js.truthy (authorization req) = true ->
     exists rest,
       post = UserLookup (Js.remove_first "Bearer " (Js.show_string (authorization req)))
                :: rest /\
       lookups rest = [] /\
       calls rest = [] /\
       (forall u,
           auth_user w (Js.remove_first "Bearer " (Js.show_string (authorization req)))
           = AuthOk (Some u) ->
           u <> "" ->
           exists warning,
             rest = StoreResult u r (now_store w) :: warning /\
             stores warning = [] /\
             (store_rejects w = false -> warning = [])) /\
       ((forall u,
            auth_user w (Js.remove_first "Bearer " (Js.show_string (authorization req)))
            = AuthOk (Some u) ->
            u = "") ->
        stores rest = [])).
Proof.
  intros Hok. rewrite (serve_accepted w req b fs Hok).
  set (r := build_result w fs (threshold_of b) (scan_groups w b fs)).
  exists r, (store_results w req r).
  split; [reflexivity|]. split; [apply scan_groups_from_input|].
  split; [apply detect_TraceOk|]. split; [apply store_results_without_header|].
  intros Hh. unfold store_results. rewrite Hh.
  set (token := Js.remove_first "Bearer " (Js.show_string (authorization req))).
  eexists. split; [reflexivity|].
  destruct (auth_user w token) as [m| |[u|]]; simpl.
  - repeat split; auto. intros u Hu. discriminate.
  - repeat split; auto. intros u Hu. discriminate.
  - destruct (String.eqb_spec u "") as [->|Hne]; simpl.
    + repeat split; auto. intros u [= <-] Hu. congruence.
    + destruct (store_rejects w); simpl; repeat split; auto.
      * intros u' [= <-] _. eexists. split; [reflexivity|]. split; [reflexivity|discriminate].
      * intros Hall. exfalso. apply Hne. now apply Hall.
      * intros u' [= <-] _. eexists. split; [reflexivity|]. split; reflexivity.
      * intros Hall. exfalso. apply Hne. now apply Hall.
  - repeat split; auto. intros u Hu. discriminate.
Qed.

Lemma scan_io_witness :
  exists r post,
    serve (Sample.world (Scans.always 0.95%float) Scans.t0)
          (Sample.post (Some "Bearer token-1") Scans.overlap None None)
    = (Data r, scan_trace (Sample.world (Scans.always 0.95%float) Scans.t0)
                 (Scans.body Scans.overlap) Scans.overlap ++ post) /\
    Forall (fun g => Forall (fun m => nth_error Scans.overlap (ref_id m) = Some (ref_file m))
                            (files g))
           (scan_groups (Sample.world (Scans.always 0.95%float) Scans.t0)
              (Scans.body Scans.overlap) Scans.overlap) /\
    only_collaborator_io
      (scan_trace (Sample.world (Scans.always 0.95%float) Scans.t0)
         (Scans.body Scans.overlap) Scans.overlap) /\
    (Js.truthy (Some "Bearer token-1") = false -> post = []) /\
    (Js.truthy (Some "Bearer token-1") = true ->
     exists rest,
       post = UserLookup (Js.remove_first "Bearer " "Bearer token-1") :: rest /\
       lookups rest = [] /\
       calls rest = [] /\
       (forall u,
           auth_user (Sample.world (Scans.always 0.95%float) Scans.t0)
                     (Js.remove_first "Bearer " "Bearer token-1") = AuthOk (Some u) ->
           u <> "" ->
           exists warning,
             rest = StoreResult u r
                      (now_store (Sample.world (Scans.always 0.95%float) Scans.t0))
                      :: warning /\
             stores warning = [] /\
             (store_rejects (Sample.world (Scans.always 0.95%float) Scans.t0) = false ->
              warning = [])) /\
       ((forall u,
            auth_user (Sample.world (Scans.always 0.95%float) Scans.t0)
                      (Js.remove_first "Bearer " "Bearer token-1") = AuthOk (Some u) ->
            u = "") ->
        stores rest = [])).
Proof.
  apply (scan_io (Sample.world (Scans.always 0.95%float) Scans.t0)
                 (Sample.post (Some "Bearer token-1") Scans.overlap None None)
                 (Scans.body Scans.overlap) Scans.overlap).
  accept.
Defined.

(** C8, counterexample: the same request served at two times gives two
    results that differ. *)
Lemma results_differ_by_timestamp :
  exists r r',
    fst (serve (Sample.world (Scans.always 0.95%float) Scans.t0)
               (Sample.post None [Sample.a_pdf; Sample.b_pdf] None None)) = Data r /\
    fst (serve (Sample.world (Scans.always 0.95%float) Scans.t1)
               (Sample.post None [Sample.a_pdf; Sample.b_pdf] None None)) = Data r' /\
    timestamp (scan_summary r) = Scans.t0 /\
    timestamp (scan_summary r') = Scans.t1 /\
    r <> r'.
Proof.
  eexists. eexists. split; [vm_compute; reflexivity|]. split; [vm_compute; reflexivity|].
  split; [reflexivity|]. split; [reflexivity|]. discriminate.
Qed.

(** C8, as the code has it: two runs on the same request with the same
    collaborator return results that agree on everything but the
    [timestamp] of the summary: the same groups in the same order and the
    same counters. *)
Theorem rescan_same_but_timestamp (w : World) (req : Request) (b : Body) (fs : list File)
    (t t' : string) :
  accepted w req b fs ->
  exists r r',
    fst (serve w req) = Data r /\
    fst (serve (with_clock w t t') req) = Data r' /\
    duplicate_groups r' = duplicate_groups r /\
    r' = with_timestamp t r.
Proof.
  intros Hok.
  assert (accepted (with_clock w t t') req b fs) as Hok' by exact Hok.
  rewrite (serve_accepted _ _ _ _ Hok), (serve_accepted _ _ _ _ Hok').
  eexists. eexists. split; [reflexivity|]. split; [reflexivity|].
  split; reflexivity.
Qed.

Lemma rescan_same_but_timestamp_witness :
  exists r r',
    fst (serve (Sample.world (Scans.always 0.95%float) Scans.t0)
               (Sample.post None Scans.overlap None None)) = Data r /\
    fst (serve (with_clock (Sample.world (Scans.always 0.95%float) Scans.t0)
                  Scans.t1 Scans.t1)
               (Sample.post None Scans.overlap None None)) = Data r' /\
    duplicate_groups r' = duplicate_groups r /\
    r' = with_timestamp Scans.t1 r.
Proof.
  apply (rescan_same_but_timestamp (Sample.world (Scans.always 0.95%float) Scans.t0)
           (Sample.post None Scans.overlap None None)
           (Scans.body Scans.overlap) Scans.overlap).
  accept.
Defined.

(** C3, on two exact groups: for a file of 131072 bytes and an empty one
    the response gives [potential_savings_mb = -0.01], below zero, where
    total minus largest is 0 bytes; for two files of 1052771 bytes it gives
    1.01, where total minus largest is 1052771 bytes, 1.00 MB to two
    decimals. *)
Theorem potential_savings_examples :
  map potential_savings_mb
      (response_groups (fst (serve (Sample.world (Scans.always 0.95%float) Scans.t0)
                                   (Sample.post None [Scans.eighth; Scans.empty] None None))))
  = [(-0.01)%float] /\
  ((-0.01) <? 0)%float = true /\
  spec_potentialSavingsBytes [Scans.eighth; Scans.empty] = 0%N /\
  map potential_savings_mb
      (response_groups (fst (serve (Sample.world (Scans.always 0.95%float) Scans.t0)
                                   (Sample.post None [Scans.mib_a; Scans.mib_b] None None))))
  = [1.01%float] /\
  spec_potentialSavingsBytes [Scans.mib_a; Scans.mib_b] = 1052771%N /\
  Js.toFixed2 (Js.of_N 1052771 / 1048576)%float = 1%float.
Proof. repeat split; vm_compute; reflexivity. Qed.

(** * Further properties of the handler *)

(** ** Helper lemmas *)

Lemma formatted_sizes w b fs :
  Forall (fun g => 2 <= List.length (gi_files g)) (formattedGroups (scan_groups w b fs)).
Proof.
  unfold formattedGroups. apply Forall_forall. intros g Hg.
  apply in_map_iff in Hg as [g0 [<- Hg0]]. rewrite formatGroup_length.
  rewrite scan_groups_split in Hg0. apply in_app_iff in Hg0 as [Hg0|Hg0].
  - pose proof (similarity_groups_sizes w b fs) as Hall.
    rewrite Forall_forall in Hall. now apply Hall.
  - pose proof (exact_groups_sizes (fileHashes (refs fs))) as Hall.
    rewrite Forall_forall in Hall. now apply Hall.
Qed.

Lemma totalDuplicateFiles_acc gs :
  Forall (fun g => 2 <= List.length (gi_files g)) gs ->
  forall acc,
    fold_left (fun acc g =>
                 if (1 <? List.length (gi_files g))%nat
                 then (acc + (List.length (gi_files g) - 1))%nat else acc) gs acc
    + List.length gs = acc + members_total gs.
Proof.
  unfold members_total. induction 1 as [|g gs Hg Hgs IH]; intros acc; simpl; [lia|].
  destruct (Nat.ltb_spec 1 (List.length (gi_files g))); [|lia].
  specialize (IH (acc + (List.length (gi_files g) - 1))). lia.
Qed.

Lemma add_file_members k r m :
  Permutation (List.concat (map snd (add_file k r m))) (List.concat (map snd m) ++ [r]).
Proof.
  induction m as [|[k' fs] m IH]; simpl.
  - reflexivity.
  - destruct (k' =? k); simpl.
    + rewrite <- !app_assoc. apply Permutation_app_head. apply Permutation_app_comm.
    + rewrite <- app_assoc. now apply Permutation_app_head.
Qed.

Lemma fileHashes_members l :
  Permutation (List.concat (map snd (fileHashes l))) l.
Proof.
  induction l as [|r l IH] using rev_ind; [reflexivity|].
  rewrite fileHashes_snoc. etransitivity; [apply add_file_members|].
  now apply Permutation_app_tail.
Qed.

Lemma refs_length fs : List.length (refs fs) = List.length fs.
Proof. now rewrite <- (length_map ref_file (refs fs)), refs_files. Qed.

Lemma exact_groups_total m :
  list_sum (map (fun g => List.length (files g)) (exact_groups m))
  <= List.length (List.concat (map snd m)).
Proof.
  unfold exact_groups. induction m as [|[k fs] m IH]; simpl; [lia|].
  rewrite length_app. destruct (1 <? List.length fs)%nat; simpl; lia.
Qed.

Lemma members_total_formatted gs :
  members_total (formattedGroups gs) = list_sum (map (fun g => List.length (files g)) gs).
Proof.
  unfold members_total, formattedGroups. rewrite map_map. f_equal.
  apply map_ext. intros g. apply formatGroup_length.
Qed.

Lemma scan_trace_no_store w b fs e :
  In e (scan_trace w b fs) -> is_store e = false /\ is_lookup e = false.
Proof.
  intros Hin. pose proof (detect_TraceOk w (threshold_of b) (include_of b) (refs fs)) as [Hev _].
  rewrite Forall_forall in Hev. specialize (Hev e Hin). destruct e; simpl in *; tauto.
Qed.

(** ** Which requests get a result *)




(** ** The counters of the summary *)

(** X3: in the summary of a result, [total_files_scanned] is the length of
    [files], [duplicate_groups_found] is the number of groups listed, and
    [total_duplicate_files] counts every member of every group but one per
    group. *)
Theorem summary_counters (w : World) (req : Request) (b : Body) (fs : list File) :
  accepted w req b fs ->
  exists r tr, serve w req = (Data r, tr) /\
    total_files_scanned (scan_summary r) = List.length fs /\
    duplicate_groups_found (scan_summary r) = List.length (duplicate_groups r) /\
    total_duplicate_files (scan_summary r) + duplicate_groups_found (scan_summary r)
    = members_total (duplicate_groups r).
Proof.
  intros Hok. rewrite (serve_accepted w req b fs Hok). eexists. eexists.
  split; [reflexivity|]. simpl. split; [reflexivity|].
  split; [unfold formattedGroups; now rewrite length_map|].
  unfold totalDuplicateFiles.
  rewrite <- (length_map formatGroup (scan_groups w b fs)).
  fold (formattedGroups (scan_groups w b fs)).
  rewrite (totalDuplicateFiles_acc _ (formatted_sizes w b fs) 0). reflexivity.
Qed.

Lemma summary_counters_witness :
  exists r tr,
    serve (Sample.world (Scans.always 0.95%float) Scans.t0)
          (Sample.post None Scans.overlap None None) = (Data r, tr) /\
    total_files_scanned (scan_summary r) = List.length Scans.overlap /\
    duplicate_groups_found (scan_summary r) = List.length (duplicate_groups r) /\
    total_duplicate_files (scan_summary r) + duplicate_groups_found (scan_summary r)
    = members_total (duplicate_groups r).
Proof.
  apply (summary_counters _ _ (Scans.body Scans.overlap) Scans.overlap). accept.
Defined.

(** X4: the first pass puts every file in exactly one array of
    [fileHashes]: the arrays taken together are a rearrangement of [files]. *)
Theorem fileHashes_partition (fs : list File) :
  Permutation (List.concat (map snd (fileHashes (refs fs)))) (refs fs) /\
  map ref_file (refs fs) = fs.
Proof. split; [apply fileHashes_members | apply refs_files]. Qed.

(** X5: when the second pass is switched off, a file is counted in at most
    one group, so the members of all groups are at most the files scanned:
    [total_duplicate_files + duplicate_groups_found <= total_files_scanned]. *)
Theorem exact_scan_counts_each_file_once (w : World) (req : Request) (b : Body)
    (fs : list File) :
  accepted w req b fs ->
  includeSimilar b = Some false ->
  exists r tr, serve w req = (Data r, tr) /\
    total_duplicate_files (scan_summary r) + duplicate_groups_found (scan_summary r)
    <= total_files_scanned (scan_summary r).
Proof.
  intros Hok Hinc. rewrite (serve_accepted w req b fs Hok). eexists. eexists.
  split; [reflexivity|]. simpl. unfold totalDuplicateFiles.
  rewrite <- (length_map formatGroup (scan_groups w b fs)).
  fold (formattedGroups (scan_groups w b fs)).
  rewrite (totalDuplicateFiles_acc _ (formatted_sizes w b fs) 0). simpl.
  rewrite members_total_formatted, scan_groups_split.
  assert (similarity_groups w b fs = []) as ->.
  { unfold similarity_groups, include_of. rewrite Hinc. now rewrite andb_false_r. }
  simpl. etransitivity; [apply exact_groups_total|].
  rewrite (Permutation_length (fileHashes_members (refs fs))), refs_length. lia.
Qed.

Lemma exact_scan_counts_each_file_once_witness :
  exists r tr,
    serve (Sample.world (Scans.always 1%float) Scans.t0)
          (Sample.post None Scans.overlap None (Some false)) = (Data r, tr) /\
    total_duplicate_files (scan_summary r) + duplicate_groups_found (scan_summary r)
    <= total_files_scanned (scan_summary r).
Proof.
  apply (exact_scan_counts_each_file_once _ _
           (mkBody (Some Scans.overlap) None (Some false)) Scans.overlap).
  - accept.
  - reflexivity.
Defined.

(** ** More on the second pass *)

Lemma similarity_pass_matched (Q : list Group -> Prop) ask threshold rs st :
  Q (duplicateGroups st) ->
  (forall gs file1 file2 s,
      In (file1, file2) (pairs (textFiles rs)) ->
      Js.geq (similarity_score s) threshold = true ->
      Q gs -> Q (group_pair file1 file2 s gs)) ->
  Q (duplicateGroups (similarity_pass ask threshold rs st)).
Proof.
  intros Hst Hstep. unfold similarity_pass.
  apply (fold_left_invariant (fun st => Q (duplicateGroups st))); [exact Hst|].
  intros s [file1 file2] Hin Hs.
  destruct (compare_pair_groups ask threshold s file1 file2) as [Heq|[d [_ [Hge Heq]]]];
    rewrite Heq; auto.
Qed.

Lemma group_pair_Forall_mentions (P : Group -> Prop) file1 file2 s gs :
  P (mkGroup [file1; file2] [s] ai_content_similarity) ->
  (forall g, mentions file1 file2 g = true -> P g -> P (extend g file1 file2 s)) ->
  Forall P gs -> Forall P (group_pair file1 file2 s gs).
Proof.
  intros Hnew Hext. induction gs as [|g gs IH]; simpl; intros Hall.
  - constructor; [exact Hnew|constructor].
  - inversion Hall; subst. destruct (mentions file1 file2 g) eqn:Hm; constructor; auto.
Qed.

Lemma mentions_has_name file1 file2 g :
  mentions file1 file2 g =
  has_name (files g) (ref_name file1) || has_name (files g) (ref_name file2).
Proof.
  unfold mentions, has_name. induction (files g) as [|r l IH]; simpl; [reflexivity|].
  rewrite IH. destruct (ref_name r =? ref_name file1), (ref_name r =? ref_name file2);
    simpl; try reflexivity; now rewrite ?orb_true_r.
Qed.

Lemma has_name_app l1 l2 n : has_name (l1 ++ l2) n = has_name l1 n || has_name l2 n.
Proof. unfold has_name. apply existsb_app. Qed.

(** Extending a group adds one detail and at most one file. *)
Lemma extend_one_file g file1 file2 s :
  mentions file1 file2 g = true ->
  List.length (files (extend g file1 file2 s)) <= List.length (files g) + 1.
Proof.
  rewrite mentions_has_name. unfold extend; simpl. intros Hm.
  destruct (has_name (files g) (ref_name file1)) eqn:H1.
  - destruct (has_name (files g) (ref_name file2)); rewrite ?length_app; simpl; lia.
  - simpl in Hm. rewrite has_name_app, Hm. simpl. rewrite length_app. simpl. lia.
Qed.

Lemma compare_pair_calls ask threshold st p :
  List.length (calls (trace (compare_pair ask threshold st p)))
  <= List.length (calls (trace st)) + 1.
Proof.
  destruct p as [file1 file2]. unfold compare_pair.
  destruct (existsb _ (processedFiles st)); [lia|].
  destruct (fileHash (ref_file file1) =? fileHash (ref_file file2)); [simpl; lia|].
  destruct (ask file1 file2) as [| | | |s]; simpl;
    try destruct (Js.geq (similarity_score s) threshold); simpl;
    rewrite ?calls_app, ?length_app; simpl; lia.
Qed.

Lemma fold_calls ask threshold l :
  forall st,
    List.length (calls (trace (fold_left (compare_pair ask threshold) l st)))
    <= List.length (calls (trace st)) + List.length l.
Proof.
  induction l as [|p l IH]; intros st; simpl; [lia|].
  specialize (IH (compare_pair ask threshold st p)).
  pose proof (compare_pair_calls ask threshold st p). lia.
Qed.

Lemma pairs_length {A : Type} (l : list A) :
  2 * List.length (pairs l) = List.length l * (List.length l - 1).
Proof.
  induction l as [|x r IH]; simpl; [reflexivity|].
  rewrite length_app, length_map, Nat.sub_0_r.
  destruct r as [|y r]; simpl in *; [reflexivity|]. rewrite Nat.sub_0_r in IH. lia.
Qed.

(** A pair of files with one key changes nothing but [processedFiles]. *)
Lemma compare_pair_same_key ask threshold st file1 file2 :
  fileHash (ref_file file1) = fileHash (ref_file file2) ->
  duplicateGroups (compare_pair ask threshold st (file1, file2)) = duplicateGroups st /\
  trace (compare_pair ask threshold st (file1, file2)) = trace st.
Proof.
  intros Hk. unfold compare_pair. rewrite Hk, String.eqb_refl.
  destruct (existsb _ (processedFiles st)); auto.
Qed.

Lemma fileHashes_one_key k l :
  l <> [] -> (forall r, In r l -> fileHash (ref_file r) = k) -> fileHashes l = [(k, l)].
Proof.
  induction l as [|r l IH] using rev_ind; [congruence|]. intros _ Hall.
  rewrite fileHashes_snoc, (Hall r) by (apply in_app_iff; right; now left).
  destruct l as [|r0 l]; [reflexivity|].
  rewrite IH; [|discriminate|intros x Hx; apply Hall, in_app_iff; now left].
  simpl. now rewrite String.eqb_refl.
Qed.

(** ** The order of the groups *)

Lemma refs_from_ascending fs : forall start, ascending (refs_from start fs).
Proof.
  unfold ascending, refs_from. induction fs as [|f fs IH]; intros start; simpl.
  - constructor.
  - constructor; [apply IH|]. apply Forall_forall. intros [i x] Hin.
    apply in_combine_l in Hin. apply in_seq in Hin. unfold ref_id. simpl. lia.
Qed.

Lemma ascending_filter p l : ascending l -> ascending (filter p l).
Proof.
  unfold ascending. induction 1 as [|a l Hl IH Ha]; simpl; [constructor|].
  destruct (p a); [|exact IH]. constructor; [exact IH|].
  rewrite Forall_forall in *. intros x Hx. apply filter_In in Hx as [Hx _]. auto.
Qed.

Lemma ascending_snoc_inv l r :
  ascending (l ++ [r]) -> ascending l /\ forall x, In x l -> ref_id x < ref_id r.
Proof.
  unfold ascending. induction l as [|a l IH]; simpl; intros H.
  - split; [constructor|tauto].
  - inversion H as [|? ? Hl Ha]; subst. destruct (IH Hl) as [Hs Hlt]. split.
    + constructor; [exact Hs|]. rewrite Forall_forall in *. intros x Hx.
      apply Ha, in_app_iff. now left.
    + intros x [<-|Hx]; [|auto]. rewrite Forall_forall in Ha.
      apply Ha, in_app_iff. right. now left.
Qed.

Lemma sorted_snoc (l : list nat) (x : nat) :
  StronglySorted lt l -> (forall y, In y l -> y < x) -> StronglySorted lt (l ++ [x]).
Proof.
  induction 1 as [|a l Hl IH Ha]; simpl; intros Hlt.
  - repeat constructor.
  - constructor.
    + apply IH. intros y Hy. apply Hlt. now right.
    + apply Forall_app. split; [exact Ha|]. constructor; [|constructor].
      apply Hlt. now left.
Qed.

Lemma add_file_first_ids k r m :
  Forall (fun e => snd e <> []) m ->
  (first_ids (add_file k r m) = first_ids m \/
   first_ids (add_file k r m) = first_ids m ++ [ref_id r]) /\
  Forall (fun e => snd e <> []) (add_file k r m).
Proof.
  unfold first_ids. induction m as [|[k' fs] m IH]; simpl; intros Hne.
  - split; [now right|]. repeat constructor. discriminate.
  - inversion Hne as [|? ? Hfs Hm]; subst. simpl in Hfs.
    destruct (k' =? k); simpl.
    + split.
      * left. f_equal. destruct fs; [congruence|reflexivity].
      * constructor; [|exact Hm]. simpl. destruct fs; discriminate.
    + destruct (IH Hm) as [[Heq|Heq] Hall]; rewrite Heq; split; auto.
Qed.

Lemma fileHashes_first_ids l :
  ascending l ->
  StronglySorted lt (first_ids (fileHashes l)) /\
  Forall (fun e => snd e <> []) (fileHashes l) /\
  (forall i, In i (first_ids (fileHashes l)) -> In i (map ref_id l)).
Proof.
  induction l as [|r l IH] using rev_ind; intros Hasc.
  - simpl. repeat split; [constructor|constructor|tauto].
  - apply ascending_snoc_inv in Hasc as [Hl Hlt].
    destruct (IH Hl) as (Hs & Hne & Hin). rewrite fileHashes_snoc.
    destruct (add_file_first_ids (fileHash (ref_file r)) r _ Hne) as [[Heq|Heq] Hne'];
      rewrite Heq; repeat split; auto.
    + intros i Hi. rewrite map_app. apply in_app_iff. left. auto.
    + apply sorted_snoc; [exact Hs|]. intros y Hy.
      apply Hin, in_map_iff in Hy as [x [<- Hx]]. auto.
    + intros i Hi. rewrite map_app. apply in_app_iff in Hi as [Hi|[<-|[]]].
      * apply in_app_iff. left. auto.
      * apply in_app_iff. right. now left.
Qed.

Lemma sorted_filter_map {A : Type} (f : A -> nat) (p : A -> bool) (l : list A) :
  StronglySorted lt (map f l) -> StronglySorted lt (map f (filter p l)).
Proof.
  induction l as [|a l IH]; simpl; intros H; [constructor|].
  inversion H as [|? ? Hl Ha]; subst. destruct (p a); simpl; [|auto].
  constructor; [auto|]. rewrite Forall_forall in *. intros x Hx.
  apply in_map_iff in Hx as [y [<- Hy]]. apply filter_In in Hy as [Hy _].
  apply Ha. now apply in_map.
Qed.

(** The exact groups of a scan, picked out of its groups. *)
Lemma exact_part w b fs :
  filter is_exact (scan_groups w b fs) = exact_groups (fileHashes (refs fs)).
Proof.
  rewrite scan_groups_split, filter_app.
  rewrite (filter_none is_exact (similarity_groups w b fs)).
  - simpl. unfold exact_groups.
    induction (filter _ (fileHashes (refs fs))) as [|e l IH]; simpl; [reflexivity|].
    now rewrite IH.
  - intros g Hg. pose proof (similarity_groups_methods w b fs) as Hall.
    rewrite Forall_forall in Hall. unfold is_exact. now rewrite (Hall g Hg).
Qed.

(** X6: the groups of a scan are the similarity groups followed by the
    exact groups, and the exact groups are the same whatever the threshold,
    the [includeSimilar] flag and the collaborator are. *)
Theorem exact_groups_last_and_fixed (w : World) (b : Body) (fs : list File) :
  exists sims exacts,
    scan_groups w b fs = sims ++ exacts /\
    Forall (fun g => detection_method g = ai_content_similarity) sims /\
    Forall (fun g => detection_method g = exact_hash_match) exacts /\
    forall w' b', filter is_exact (scan_groups w' b' fs) = exacts.
Proof.
  exists (similarity_groups w b fs), (exact_groups (fileHashes (refs fs))).
  split; [apply scan_groups_split|]. split; [apply similarity_groups_methods|].
  split; [apply exact_groups_methods|]. intros w' b'.
  apply exact_part.
Qed.

(** X7: the exact groups are listed in the order in which their first
    members occur in [files], and inside an exact group the members keep
    the order of [files]. *)
Theorem exact_groups_in_input_order (w : World) (b : Body) (fs : list File) :
  StronglySorted lt
    (map (fun g => first_id (files g)) (filter is_exact (scan_groups w b fs))) /\
  Forall (fun g => StronglySorted lt (map ref_id (files g)))
    (filter is_exact (scan_groups w b fs)).
Proof.
  rewrite exact_part.
  pose proof (refs_from_ascending fs 0) as Hasc. fold (refs fs) in Hasc. split.
  - unfold exact_groups. rewrite map_map. simpl.
    apply (sorted_filter_map (fun e => first_id (snd e))).
    apply (fileHashes_first_ids (refs fs) Hasc).
  - apply Forall_forall. intros g Hg. unfold exact_groups in Hg.
    apply in_map_iff in Hg as [[k l] [<- He]]. apply filter_In in He as [He _]. simpl.
    rewrite (bucket_eq _ _ (fileHashes_spec (refs fs)) _ _ He).
    pose proof (ascending_filter (has_key k) _ Hasc) as Hs. unfold ascending in Hs.
    clear - Hs. induction Hs as [|a l Hl IH Ha]; simpl; constructor; auto.
    rewrite Forall_forall in *. intros i Hi. apply in_map_iff in Hi as [x [<- Hx]]. auto.
Qed.

(** X8: only files that pass the text filter (a mime type starting with
    [text/], or some content) become members of a similarity group. *)
Theorem similarity_members_are_text (w : World) (b : Body) (fs : list File) :
  Forall (fun g => Forall (fun r => is_text (ref_file r) = true /\ In r (refs fs)) (files g))
         (similarity_groups w b fs).
Proof.
  unfold similarity_groups.
  destruct (negb (openRouterKey w =? "") && include_of b); [|constructor].
  apply similarity_pass_groups; [constructor|].
  intros gs file1 file2 s Hin. apply pairs_In in Hin as [H1 H2].
  apply filter_In in H1 as [H1 T1]. apply filter_In in H2 as [H2 T2].
  apply group_pair_Forall.
  - simpl. repeat constructor; assumption.
  - intros g Hg. unfold extend; simpl.
    assert (Forall (fun r => is_text (ref_file r) = true /\ In r (refs fs))
              (if has_name (files g) (ref_name file1) then files g else files g ++ [file1]))
      as Hg1.
    { destruct (has_name (files g) (ref_name file1)); [exact Hg|].
      apply Forall_app. split; [exact Hg|]. repeat constructor; assumption. }
    destruct (has_name _ (ref_name file2)); [exact Hg1|].
    apply Forall_app. split; [exact Hg1|]. repeat constructor; assumption.
Qed.

(** X9: every similarity group rests on answers that reach the threshold:
    each of its [similarity_details] has a score that is, or that
    JavaScript converts to, a number at or above the threshold; there is at
    least one, a group of n files has at least n - 1 of them, and the
    [similarity_score] reported for the group is the score of the first
    one, as the answer gave it. *)
Theorem similarity_groups_reach_threshold (w : World) (b : Body) (fs : list File) :
  Forall (fun g =>
            Forall (fun s => at_least (threshold_of b) (similarity_score s))
                   (similarity_details g) /\
            List.length (files g) <= List.length (similarity_details g) + 1 /\
            exists d ds,
              similarity_details g = d :: ds /\
              gi_similarity_score (formatGroup g) = similarity_score d /\
              gi_similarity_details (formatGroup g) = d :: ds)
         (similarity_groups w b fs).
Proof.
  assert (forall s, Js.geq (similarity_score s) (threshold_of b) = true ->
                    at_least (threshold_of b) (similarity_score s)) as Hge.
  { intros s. unfold Js.geq, at_least. destruct (similarity_score s); auto. discriminate. }
  enough (Forall (fun g =>
            Forall (fun s => at_least (threshold_of b) (similarity_score s))
                   (similarity_details g) /\
            List.length (files g) <= List.length (similarity_details g) + 1 /\
            similarity_details g <> [])
         (similarity_groups w b fs)) as Hinv.
  { eapply Forall_impl; [|exact Hinv]. intros g (Ha & Hb & Hc).
    split; [exact Ha|]. split; [exact Hb|]. unfold formatGroup; simpl.
    destruct (similarity_details g) as [|d ds]; [congruence|]. eauto. }
  unfold similarity_groups.
  destruct (negb (openRouterKey w =? "") && include_of b); [|constructor].
  apply similarity_pass_matched; [constructor|].
  intros gs file1 file2 s _ Hs. apply Hge in Hs. apply group_pair_Forall_mentions.
  - simpl. split; [repeat constructor; exact Hs|]. split; [lia|discriminate].
  - intros g Hm (Ha & Hb & Hc). pose proof (extend_one_file g file1 file2 s Hm) as Hl.
    unfold extend in *; simpl in *. split; [|split].
    + apply Forall_app. split; [exact Ha|]. repeat constructor. exact Hs.
    + rewrite length_app. simpl. lia.
    + destruct (similarity_details g); discriminate.
Qed.

(** X10: a scan asks the collaborator at most once per pair of text files:
    with t text files there are at most t (t - 1) / 2 calls. *)
Theorem collaborator_calls_bounded (w : World) (b : Body) (fs : list File) :
  2 * List.length (calls (scan_trace w b fs))
  <= List.length (textFiles (refs fs)) * (List.length (textFiles (refs fs)) - 1).
Proof.
  rewrite <- pairs_length. unfold scan_trace, detect; simpl.
  destruct (negb (openRouterKey w =? "") && include_of b); [|simpl; lia].
  unfold similarity_pass.
  pose proof (fold_calls (collaborator w) (threshold_of b) (pairs (textFiles (refs fs)))
                (mkPassState [] [] [])) as H.
  simpl in H. lia.
Qed.

(** X11: files that all have one key are never sent to the collaborator;
    two or more of them give exactly one group, the exact group of all the
    files. *)
Theorem one_key_one_group (w : World) (b : Body) (fs : list File) (k : string) :
  2 <= List.length fs ->
  (forall f, In f fs -> fileHash f = k) ->
  calls (scan_trace w b fs) = [] /\
  scan_groups w b fs = [mkGroup (refs fs) [exact_details] exact_hash_match].
Proof.
  intros Hlen Hkey.
  assert (forall r, In r (refs fs) -> fileHash (ref_file r) = k) as Hrefs.
  { intros r Hr. apply Hkey. rewrite <- (refs_files fs). now apply in_map. }
  assert (forall st,
             duplicateGroups st = [] -> trace st = [] ->
             duplicateGroups (similarity_pass (collaborator w) (threshold_of b) (refs fs) st) = []
             /\ trace (similarity_pass (collaborator w) (threshold_of b) (refs fs) st) = [])
    as Hpass.
  { intros st Hg Ht. unfold similarity_pass.
    apply (fold_left_invariant (fun st => duplicateGroups st = [] /\ trace st = [])); [auto|].
    intros s [file1 file2] Hin [Hg' Ht']. apply pairs_In in Hin as [H1 H2].
    apply filter_In in H1 as [H1 _]. apply filter_In in H2 as [H2 _].
    destruct (compare_pair_same_key (collaborator w) (threshold_of b) s file1 file2)
      as [Eg Et]; [now rewrite (Hrefs _ H1), (Hrefs _ H2)|].
    rewrite Eg, Et. auto. }
  destruct (Hpass (mkPassState [] [] []) eq_refl eq_refl) as [Hg Ht].
  assert (exact_groups (fileHashes (refs fs)) =
          [mkGroup (refs fs) [exact_details] exact_hash_match]) as Hex.
  { rewrite (fileHashes_one_key k (refs fs)); auto.
    - unfold exact_groups. simpl. rewrite refs_length.
      destruct (Nat.ltb_spec 1 (List.length fs)); [reflexivity|lia].
    - intros E. pose proof (refs_length fs) as Hl. rewrite E in Hl. simpl in Hl. lia. }
  split.
  - unfold scan_trace, detect; simpl.
    destruct (negb (openRouterKey w =? "") && include_of b); [now rewrite Ht|reflexivity].
  - rewrite scan_groups_split, Hex. unfold similarity_groups.
    destruct (negb (openRouterKey w =? "") && include_of b); [now rewrite Hg|reflexivity].
Qed.

Lemma one_key_one_group_witness :
  calls (scan_trace (Sample.world (Scans.always 1%float) Scans.t0)
                    (Scans.body [Sample.a_pdf; Sample.b_pdf]) [Sample.a_pdf; Sample.b_pdf]) = [] /\
  scan_groups (Sample.world (Scans.always 1%float) Scans.t0)
              (Scans.body [Sample.a_pdf; Sample.b_pdf]) [Sample.a_pdf; Sample.b_pdf]
  = [mkGroup (refs [Sample.a_pdf; Sample.b_pdf]) [exact_details] exact_hash_match].
Proof.
  apply (one_key_one_group (Sample.world (Scans.always 1%float) Scans.t0)
           (Scans.body [Sample.a_pdf; Sample.b_pdf]) [Sample.a_pdf; Sample.b_pdf] "h1").
  - simpl. lia.
  - intros f [<-|[<-|[]]]; reflexivity.
Defined.

(** ** Storing the result *)

(** X12: when the handler posts a result to [ai_analysis_results], it is
    the result it returns, stamped with the clock, for the user the auth
    service named for the token of the authorization header; nothing is
    stored for a request without a header or without a resolved user. *)
Theorem stored_result_is_returned (w : World) (req : Request) (u : string)
    (r' : ScanResult) (t : string) :
  In (StoreResult u r' t) (snd (serve w req)) ->
  fst (serve w req) = Data r' /\
  t = now_store w /\
  u <> "" /\
  Js.truthy (authorization req) = true /\
  auth_user w (Js.remove_first "Bearer " (Js.show_string (authorization req)))
  = AuthOk (Some u).
Proof.
  unfold serve, failed.
  destruct (method req =? "OPTIONS"); [intros []|].
  destruct (json req) as [m|b]; [intros [H|[]]; discriminate|].
  destruct (body_files b) as [[|f fs]|]; try (intros [H|[]]; discriminate).
  destruct (negb (Js.truthy (SUPABASE_URL w)) || negb (Js.truthy (SUPABASE_SERVICE_ROLE_KEY w)));
    [intros [H|[]]; discriminate|].
  cbn [fst snd]. intros Hin. apply in_app_iff in Hin as [Hin|Hin].
  { destruct (scan_trace_no_store w b (f :: fs) _ Hin) as [Hs _]. discriminate. }
  unfold store_results in Hin.
  destruct (Js.truthy (authorization req)); [|destruct Hin].
  destruct Hin as [Hin|Hin]; [discriminate|].
  destruct (auth_user w _) as [m| |id] eqn:Hauth.
  - destruct Hin as [Hin|[]]; discriminate.
  - destruct Hin.
  - destruct id as [i|]; simpl in Hin; [|destruct Hin].
    destruct (String.eqb_spec i "") as [->|Hne]; simpl in Hin; [destruct Hin|].
    destruct Hin as [Hin|Hin].
    + inversion Hin; subst. auto.
    + destruct (store_rejects w); [destruct Hin as [Hin|[]]; discriminate|destruct Hin].
Qed.

Lemma stored_result_is_returned_witness :
  fst (serve (Sample.world (Scans.always 0.95%float) Scans.t0)
             (Sample.post (Some "Bearer token-1") [Sample.a_pdf; Sample.b_pdf] None None))
  = Data (build_result (Sample.world (Scans.always 0.95%float) Scans.t0)
            [Sample.a_pdf; Sample.b_pdf] 0.9%float
            (scan_groups (Sample.world (Scans.always 0.95%float) Scans.t0)
               (Scans.body [Sample.a_pdf; Sample.b_pdf]) [Sample.a_pdf; Sample.b_pdf])) /\
  Scans.t0 = now_store (Sample.world (Scans.always 0.95%float) Scans.t0) /\
  "user-1" <> "" /\
  Js.truthy (Some "Bearer token-1") = true /\
  auth_user (Sample.world (Scans.always 0.95%float) Scans.t0)
            (Js.remove_first "Bearer " "Bearer token-1") = AuthOk (Some "user-1").
Proof.
  apply (stored_result_is_returned
           (Sample.world (Scans.always 0.95%float) Scans.t0)
           (Sample.post (Some "Bearer token-1") [Sample.a_pdf; Sample.b_pdf] None None)).
  vm_compute. right. left. reflexivity.
Defined.

(** X13: the key taken from the environment falls back on a literal, so it
    is never empty: the handler never reports the scan method [basic_hash],
    and the second pass is switched by [includeSimilar] alone, also when
    OPENROUTER_API_KEY is not set. *)
Theorem scan_method_is_ai_enhanced (w : World) (fs : list File) (threshold : float)
    (gs : list Group) :
  (openRouterKey w =? "") = false /\
  scan_method (scan_summary (build_result w fs threshold gs)) = "ai_enhanced" /\
  forall b fs',
    similarity_groups w b fs' =
    if include_of b
    then duplicateGroups (similarity_pass (collaborator w) (threshold_of b) (refs fs')
                            (mkPassState [] [] []))
    else [].
Proof.
  assert ((openRouterKey w =? "") = false) as Hkey.
  { unfold openRouterKey, Js.or_else. destruct (OPENROUTER_API_KEY w) as [s|]; [|reflexivity].
    destruct (s =? "") eqn:Hs; [reflexivity|exact Hs]. }
  split; [exact Hkey|]. split.
  - simpl. now rewrite Hkey.
  - intros b fs'. unfold similarity_groups. now rewrite Hkey.
Qed.

(** * Properties of the callers *)

Lemma substring_all s : substring 0 (String.length s) s = s.
Proof. induction s as [|c s IH]; simpl; [reflexivity|now rewrite IH]. Qed.

(** The handler's [authHeader.replace('Bearer ', '')] undoes the client's
    [`Bearer ${token}`]. *)
Lemma remove_Bearer token : Js.remove_first "Bearer " ("Bearer " ++ token) = token.
Proof.
  unfold Js.remove_first.
  assert (index 0 "Bearer " ("Bearer " ++ token) = Some 0) as ->.
  { cbn. now destruct token. }
  cbn. rewrite Nat.sub_0_r. apply substring_all.
Qed.

Lemma strip_trailing_cons c s :
  strip_trailing s <> "" -> strip_trailing (String c s) = String c (strip_trailing s).
Proof. simpl. destruct (strip_trailing s); [congruence|reflexivity]. Qed.

Lemma strip_trailing_starts c s :
  http_whitespace c = false -> exists r, strip_trailing (String c s) = String c r.
Proof. intros Hc. simpl. rewrite Hc. destruct (strip_trailing s); eauto. Qed.

Lemma strip_trailing_append p t :
  t <> "" -> strip_trailing t = t -> strip_trailing (p ++ t) = (p ++ t)%string.
Proof.
  intros Hne Ht. induction p as [|c p IH]; [exact Ht|].
  cbn [append]. rewrite strip_trailing_cons; rewrite IH; [reflexivity|].
  destruct p; [exact Hne|discriminate].
Qed.

(** A token without trailing whitespace passes through the header as it
    is. *)
Lemma header_value_token t :
  t <> "" -> strip_trailing t = t ->
  header_value ("Bearer " ++ t) = ("Bearer " ++ t)%string.
Proof.
  intros Hne Ht. unfold header_value.
  change (strip_leading ("Bearer " ++ t)) with ("Bearer " ++ t)%string.
  now apply strip_trailing_append.
Qed.

Lemma header_value_Bearer s : exists r, header_value ("Bearer " ++ s) = String "B" r.
Proof. unfold header_value. cbn [append strip_leading]. now apply strip_trailing_starts. Qed.

Lemma scan_request_header br fs threshold inc :
  Js.truthy (authorization (scan_request br fs threshold inc)) = true.
Proof.
  unfold scan_request. cbn [authorization].
  destruct (header_value_Bearer (Js.or_else (access_token br) "")) as [r ->]. reflexivity.
Qed.

Lemma scan_request_accepted br w fs threshold inc :
  fs <> [] ->
  Js.truthy (SUPABASE_URL w) = true ->
  Js.truthy (SUPABASE_SERVICE_ROLE_KEY w) = true ->
  accepted w (scan_request br fs threshold inc)
           (mkBody (Some fs) (Some threshold) (Some inc)) fs.
Proof. intros Hne Hu Hk. repeat split; auto. Qed.

Lemma lookups_scan_trace w b fs : lookups (scan_trace w b fs) = [].
Proof.
  unfold lookups. apply filter_none. intros e He.
  now destruct (scan_trace_no_store w b fs e He).
Qed.

(** A scan the handler accepts: what the client gets back. *)
Lemma detectDuplicates_accepted br w fs threshold inc :
  fetch_rejects br = None ->
  fs <> [] ->
  Js.truthy (SUPABASE_URL w) = true ->
  Js.truthy (SUPABASE_SERVICE_ROLE_KEY w) = true ->
  detectDuplicates br w fs threshold inc =
    (Returned (wire_result
                 (build_result w fs threshold
                    (scan_groups w (mkBody (Some fs) (Some threshold) (Some inc)) fs))),
     [Sent (scan_request br fs threshold inc)],
     scan_trace w (mkBody (Some fs) (Some threshold) (Some inc)) fs ++
     store_results w (scan_request br fs threshold inc)
       (build_result w fs threshold
          (scan_groups w (mkBody (Some fs) (Some threshold) (Some inc)) fs))).
Proof.
  intros Hnet Hne Hu Hk. unfold detectDuplicates. rewrite Hnet.
  rewrite (serve_accepted _ _ _ _ (scan_request_accepted br w fs threshold inc Hne Hu Hk)).
  reflexivity.
Qed.

(** A scan the handler refuses: the client throws the status line. *)
Lemma detectDuplicates_refused br w fs threshold inc m :
  fetch_rejects br = None ->
  fst (serve w (scan_request br fs threshold inc)) = Failed m ->
  fst (fst (detectDuplicates br w fs threshold inc))
  = Thrown ("AI service error: 500 - " ++ statusText br).
Proof.
  intros Hnet Hm. unfold detectDuplicates. rewrite Hnet.
  destruct (serve w (scan_request br fs threshold inc)) as [answer events].
  simpl in Hm. subst answer. reflexivity.
Qed.

(** X14: a scan sent by the client and accepted by the handler makes the
    handler look the user up exactly once.  The header reaches the handler
    without its trailing whitespace: with a session whose access token is
    not empty and does not end in whitespace the lookup carries that
    token; without a session, or with an empty token, the header arrives as
    [Bearer], nothing is cut from it and the lookup carries the token
    [Bearer]. *)
Theorem client_scan_looks_user_up (br : Browser) (w : World) (fs : list File)
    (threshold : float) (inc : bool) :
  fetch_rejects br = None ->
  fs <> [] ->
  Js.truthy (SUPABASE_URL w) = true ->
  Js.truthy (SUPABASE_SERVICE_ROLE_KEY w) = true ->
  exists token,
    lookups (snd (detectDuplicates br w fs threshold inc)) = [UserLookup token] /\
    (Js.or_else (access_token br) "" = "" -> token = "Bearer") /\
    (forall t, access_token br = Some t -> t <> "" -> strip_trailing t = t -> token = t).
Proof.
  intros Hnet Hne Hu Hk.
  exists (Js.remove_first "Bearer "
            (header_value ("Bearer " ++ Js.or_else (access_token br) ""))).
  split; [|split].
  - rewrite (detectDuplicates_accepted br w fs threshold inc Hnet Hne Hu Hk). cbn [snd].
    unfold lookups. rewrite filter_app.
    fold (lookups (scan_trace w (mkBody (Some fs) (Some threshold) (Some inc)) fs)).
    rewrite lookups_scan_trace. cbn [app].
    destruct (store_results_with_header w (scan_request br fs threshold inc)
                (build_result w fs threshold
                   (scan_groups w (mkBody (Some fs) (Some threshold) (Some inc)) fs))
                (scan_request_header br fs threshold inc))
      as (rest & -> & Hl & _).
    cbn [filter is_lookup]. rewrite Hl. reflexivity.
  - intros ->. reflexivity.
  - intros t Ht Hne' Hstrip. rewrite Ht. unfold Js.or_else.
    destruct (String.eqb_spec t ""); [congruence|].
    rewrite (header_value_token t Hne' Hstrip). apply remove_Bearer.
Qed.

Lemma client_scan_looks_user_up_witness :
  exists token,
    lookups (snd (detectDuplicates
                    (mkBrowser None None "" "Unexpected end of JSON input" (fun _ => None))
                    (Sample.world (Scans.always 0.95%float) Scans.t0)
                    Scans.overlap 0.9%float true))
    = [UserLookup token] /\
    (Js.or_else
       (access_token (mkBrowser None None "" "Unexpected end of JSON input" (fun _ => None)))
       "" = "" -> token = "Bearer") /\
    (forall t,
        access_token (mkBrowser None None "" "Unexpected end of JSON input" (fun _ => None))
        = Some t ->
        t <> "" -> strip_trailing t = t -> token = t).
Proof.
  apply (client_scan_looks_user_up
           (mkBrowser None None "" "Unexpected end of JSON input" (fun _ => None))
           (Sample.world (Scans.always 0.95%float) Scans.t0) Scans.overlap 0.9%float true);
    try reflexivity.
  discriminate.
Defined.

Lemma sent_requests_app evs1 evs2 :
  sent_requests (evs1 ++ evs2) = sent_requests evs1 ++ sent_requests evs2.
Proof.
  induction evs1 as [|e evs1 IH]; simpl; [reflexivity|].
  destruct e; simpl; now rewrite IH.
Qed.

(** What [detectDuplicates] sends: the one request of the scan. *)
Lemma detectDuplicates_sent br w fs threshold inc :
  sent_requests (snd (fst (detectDuplicates br w fs threshold inc)))
  = [scan_request br fs threshold inc].
Proof.
  unfold detectDuplicates. destruct (fetch_rejects br); [reflexivity|].
  destruct (serve w (scan_request br fs threshold inc)) as [answer events].
  destruct (negb (ok answer)); [reflexivity|]. destruct answer; reflexivity.
Qed.

Lemma handleScan_sent br w f fs notify st :
  sent_requests (snd (fst (handleScan br w (f :: fs) notify st)))
  = [scan_request br (f :: fs) (ui_similarityThreshold st) (ui_includeSimilar st)].
Proof.
  unfold handleScan.
  pose proof (detectDuplicates_sent br w (f :: fs) (ui_similarityThreshold st)
                (ui_includeSimilar st)) as Hsent.
  destruct (detectDuplicates br w (f :: fs) (ui_similarityThreshold st) (ui_includeSimilar st))
    as [[[r|m] sent] events]; cbn [fst snd] in *.
  - destruct notify; [destruct (callback_throws br r) as [[m|]|]|]; cbn [fst snd];
      rewrite sent_requests_app, Hsent; reflexivity.
  - rewrite sent_requests_app, Hsent. reflexivity.
Qed.

Lemma or_else_nonempty o d : d <> "" -> Js.or_else o d <> "".
Proof.
  intros Hd. unfold Js.or_else. destruct o as [s|]; [|exact Hd].
  destruct (String.eqb_spec s ""); assumption.
Qed.

(** X15: the component never sends an empty scan.  With [files] empty,
    [handleScan] sends nothing and only sets the error "No files provided
    for scanning"; otherwise it sends one POST that carries [files], the
    threshold and the flag of the state, and a non-empty authorization
    header. *)
Theorem ui_sends_well_formed_scans (br : Browser) (w : World) (notify : bool)
    (st : UiState) :
  handleScan br w [] notify st =
    (mkUiState (isScanning st) (results st) (Some "No files provided for scanning")
               (ui_similarityThreshold st) (ui_includeSimilar st), [], []) /\
  forall f fs,
  exists req,
    sent_requests (snd (fst (handleScan br w (f :: fs) notify st))) = [req] /\
    method req = "POST" /\
    Js.truthy (authorization req) = true /\
    json req = inr (mkBody (Some (f :: fs)) (Some (ui_similarityThreshold st))
                           (Some (ui_includeSimilar st))).
Proof.
  split; [reflexivity|]. intros f fs.
  exists (scan_request br (f :: fs) (ui_similarityThreshold st) (ui_includeSimilar st)).
  split; [apply handleScan_sent|]. split; [reflexivity|].
  split; [apply scan_request_header|reflexivity].
Qed.

(** X16: when [handleScan] ends on a non-empty list, [isScanning] is false
    and the settings are untouched.  Either a result is shown and the error
    is cleared (the callback, when given, returned, or threw [null] or
    [undefined]); or a non-empty error is shown and the result shown before
    stays; or, when the [onDetectionComplete] callback is given and throws
    a value on the new result, that result is shown together with a
    non-empty error. *)
Theorem scan_end_state (br : Browser) (w : World) (fs : list File) (notify : bool)
    (st : UiState) :
  fs <> [] ->
  isScanning (fst (fst (handleScan br w fs notify st))) = false /\
  ui_similarityThreshold (fst (fst (handleScan br w fs notify st))) = ui_similarityThreshold st /\
  ui_includeSimilar (fst (fst (handleScan br w fs notify st))) = ui_includeSimilar st /\
  ((exists r,
       results (fst (fst (handleScan br w fs notify st))) = Some r /\
       error (fst (fst (handleScan br w fs notify st))) = None /\
       (notify = true ->
        callback_throws br r = None \/ callback_throws br r = Some RaisedNullish)) \/
   (results (fst (fst (handleScan br w fs notify st))) = results st /\
    exists m, error (fst (fst (handleScan br w fs notify st))) = Some m /\ m <> "") \/
   (notify = true /\
    exists r message m,
      results (fst (fst (handleScan br w fs notify st))) = Some r /\
      callback_throws br r = Some (RaisedValue message) /\
      error (fst (fst (handleScan br w fs notify st))) = Some m /\ m <> "")).
Proof.
  intros Hne. unfold handleScan. destruct fs as [|f fs]; [congruence|].
  destruct (detectDuplicates br w (f :: fs) (ui_similarityThreshold st) (ui_includeSimilar st))
    as [[[r|m] sent] events].
  - destruct notify.
    + destruct (callback_throws br r) as [[message|]|] eqn:Hcb;
        cbn [fst snd isScanning results error ui_similarityThreshold ui_includeSimilar].
      * repeat split. right. right. split; [reflexivity|].
        exists r, message, (Js.or_else message "Scan failed").
        repeat split; auto. apply or_else_nonempty. discriminate.
      * repeat split. left. exists r. auto.
      * repeat split. left. exists r. auto.
    + cbn [fst snd isScanning results error ui_similarityThreshold ui_includeSimilar].
      repeat split. left. exists r. repeat split. discriminate.
  - cbn [fst snd isScanning results error ui_similarityThreshold ui_includeSimilar].
    repeat split. right. left. split; [reflexivity|]. eexists. split; [reflexivity|].
    apply or_else_nonempty. discriminate.
Qed.

Lemma scan_end_state_witness :
  isScanning (fst (fst (handleScan (mkBrowser None None "" "" (fun _ => Some (RaisedValue (Some "callback failed"))))
       (Sample.world (Scans.always 0.95%float) Scans.t0) Scans.overlap true initial_state))) = false /\
  ui_similarityThreshold (fst (fst (handleScan (mkBrowser None None "" "" (fun _ => Some (RaisedValue (Some "callback failed"))))
       (Sample.world (Scans.always 0.95%float) Scans.t0) Scans.overlap true initial_state))) = ui_similarityThreshold initial_state /\
  ui_includeSimilar (fst (fst (handleScan (mkBrowser None None "" "" (fun _ => Some (RaisedValue (Some "callback failed"))))
       (Sample.world (Scans.always 0.95%float) Scans.t0) Scans.overlap true initial_state))) = ui_includeSimilar initial_state /\
  ((exists r,
       results (fst (fst (handleScan (mkBrowser None None "" "" (fun _ => Some (RaisedValue (Some "callback failed"))))
       (Sample.world (Scans.always 0.95%float) Scans.t0) Scans.overlap true initial_state))) = Some r /\
       error (fst (fst (handleScan (mkBrowser None None "" "" (fun _ => Some (RaisedValue (Some "callback failed"))))
       (Sample.world (Scans.always 0.95%float) Scans.t0) Scans.overlap true initial_state))) = None /\
       (true = true ->
        callback_throws (mkBrowser None None "" "" (fun _ => Some (RaisedValue (Some "callback failed")))) r = None \/ callback_throws (mkBrowser None None "" "" (fun _ => Some (RaisedValue (Some "callback failed")))) r = Some RaisedNullish)) \/
   (results (fst (fst (handleScan (mkBrowser None None "" "" (fun _ => Some (RaisedValue (Some "callback failed"))))
       (Sample.world (Scans.always 0.95%float) Scans.t0) Scans.overlap true initial_state))) = results initial_state /\
    exists m, error (fst (fst (handleScan (mkBrowser None None "" "" (fun _ => Some (RaisedValue (Some "callback failed"))))
       (Sample.world (Scans.always 0.95%float) Scans.t0) Scans.overlap true initial_state))) = Some m /\ m <> "") \/
   (true = true /\
    exists r message m,
      results (fst (fst (handleScan (mkBrowser None None "" "" (fun _ => Some (RaisedValue (Some "callback failed"))))
       (Sample.world (Scans.always 0.95%float) Scans.t0) Scans.overlap true initial_state))) = Some r /\
      callback_throws (mkBrowser None None "" "" (fun _ => Some (RaisedValue (Some "callback failed")))) r = Some (RaisedValue message) /\
      error (fst (fst (handleScan (mkBrowser None None "" "" (fun _ => Some (RaisedValue (Some "callback failed"))))
       (Sample.world (Scans.always 0.95%float) Scans.t0) Scans.overlap true initial_state))) = Some m /\ m <> "")).
Proof.
  apply (scan_end_state (mkBrowser None None "" "" (fun _ => Some (RaisedValue (Some "callback failed"))))
           (Sample.world (Scans.always 0.95%float) Scans.t0)
           Scans.overlap true initial_state).
  discriminate.
Defined.

Lemma wire_result_groups r :
  map (fun g => (gi_detection_method g, map name (gi_files g)))
      (duplicate_groups (wire_result r))
  = map (fun g => (gi_detection_method g, map name (gi_files g))) (duplicate_groups r).
Proof.
  unfold wire_result; simpl. rewrite map_map. apply map_ext. intros g.
  unfold wire_group; simpl. f_equal. rewrite map_map. reflexivity.
Qed.

Lemma formattedGroups_names gs :
  map (fun g => (gi_detection_method g, map name (gi_files g))) (formattedGroups gs)
  = map (fun g => (detection_method g, map ref_name (files g))) gs.
Proof.
  unfold formattedGroups. rewrite map_map. apply map_ext. intros g.
  unfold formatGroup; simpl. f_equal. rewrite map_map. reflexivity.
Qed.

(** X17: end to end, a scan of a non-empty list against a configured
    handler ends with the handler's result shown, as it reads after the
    JSON of the response: the groups are those of the scan of [files] under
    the threshold and the flag of the state, with the same methods and file
    names in the same order, and [total_files_scanned] is the number of
    files.  One request was sent; the callback, when given, received the
    result; the error is cleared exactly when no callback is given, or the
    callback returns, or it throws [null] or [undefined]. *)
Theorem ui_shows_the_scan (br : Browser) (w : World) (fs : list File) (notify : bool)
    (st : UiState) :
  fetch_rejects br = None ->
  fs <> [] ->
  Js.truthy (SUPABASE_URL w) = true ->
  Js.truthy (SUPABASE_SERVICE_ROLE_KEY w) = true ->
  exists r,
    fst (serve w (scan_request br fs (ui_similarityThreshold st) (ui_includeSimilar st)))
    = Data r /\
    results (fst (fst (handleScan br w fs notify st))) = Some (wire_result r) /\
    isScanning (fst (fst (handleScan br w fs notify st))) = false /\
    sent_requests (snd (fst (handleScan br w fs notify st)))
    = [scan_request br fs (ui_similarityThreshold st) (ui_includeSimilar st)] /\
    (notify = true ->
     In (DetectionComplete (wire_result r)) (snd (fst (handleScan br w fs notify st)))) /\
    (error (fst (fst (handleScan br w fs notify st))) = None <->
     (notify = false \/ callback_throws br (wire_result r) = None \/
      callback_throws br (wire_result r) = Some RaisedNullish)) /\
    total_files_scanned (scan_summary (wire_result r)) = List.length fs /\
    map (fun g => (gi_detection_method g, map name (gi_files g)))
        (duplicate_groups (wire_result r))
    = map (fun g => (detection_method g, map ref_name (files g)))
          (scan_groups w (mkBody (Some fs) (Some (ui_similarityThreshold st))
                                 (Some (ui_includeSimilar st))) fs).
Proof.
  intros Hnet Hne Hu Hk. destruct fs as [|f fs]; [congruence|].
  exists (build_result w (f :: fs) (ui_similarityThreshold st)
            (scan_groups w (mkBody (Some (f :: fs)) (Some (ui_similarityThreshold st))
                                   (Some (ui_includeSimilar st))) (f :: fs))).
  split.
  { now rewrite (serve_accepted _ _ _ _
                   (scan_request_accepted br w (f :: fs) (ui_similarityThreshold st)
                      (ui_includeSimilar st) Hne Hu Hk)). }
  split; [|split; [|split; [apply handleScan_sent|]]].
  1, 2: unfold handleScan;
        rewrite (detectDuplicates_accepted br w (f :: fs) _ _ Hnet Hne Hu Hk);
        destruct notify; [destruct (callback_throws br _) as [[message|]|]|]; reflexivity.
  split; [|split; [|split]].
  - intros ->. unfold handleScan.
    rewrite (detectDuplicates_accepted br w (f :: fs) _ _ Hnet Hne Hu Hk).
    destruct (callback_throws br _) as [[message|]|]; cbn [fst snd app];
      right; left; reflexivity.
  - unfold handleScan.
    rewrite (detectDuplicates_accepted br w (f :: fs) _ _ Hnet Hne Hu Hk).
    destruct notify.
    + destruct (callback_throws br _) as [[message|]|]; cbn [fst snd error]; split;
        auto; try discriminate.
      intros [H|[H|H]]; discriminate.
    + cbn [fst snd error]. split; auto.
  - reflexivity.
  - rewrite wire_result_groups. apply formattedGroups_names.
Qed.

Lemma ui_shows_the_scan_witness :
  exists r,
    fst (serve (Sample.world (Scans.always 0.95%float) Scans.t0)
               (scan_request (mkBrowser (Some "token-1") None "" "" (fun _ => None))
                  Scans.overlap (ui_similarityThreshold initial_state)
                  (ui_includeSimilar initial_state)))
    = Data r /\
    results (fst (fst (handleScan (mkBrowser (Some "token-1") None "" "" (fun _ => None))
                         (Sample.world (Scans.always 0.95%float) Scans.t0)
                         Scans.overlap true initial_state))) = Some (wire_result r) /\
    isScanning (fst (fst (handleScan (mkBrowser (Some "token-1") None "" "" (fun _ => None))
                            (Sample.world (Scans.always 0.95%float) Scans.t0)
                            Scans.overlap true initial_state))) = false /\
    sent_requests (snd (fst (handleScan (mkBrowser (Some "token-1") None "" "" (fun _ => None))
                               (Sample.world (Scans.always 0.95%float) Scans.t0)
                               Scans.overlap true initial_state)))
    = [scan_request (mkBrowser (Some "token-1") None "" "" (fun _ => None)) Scans.overlap
         (ui_similarityThreshold initial_state) (ui_includeSimilar initial_state)] /\
    (true = true ->
     In (DetectionComplete (wire_result r))
        (snd (fst (handleScan (mkBrowser (Some "token-1") None "" "" (fun _ => None))
                     (Sample.world (Scans.always 0.95%float) Scans.t0)
                     Scans.overlap true initial_state)))) /\
    (error (fst (fst (handleScan (mkBrowser (Some "token-1") None "" "" (fun _ => None))
                        (Sample.world (Scans.always 0.95%float) Scans.t0)
                        Scans.overlap true initial_state))) = None <->
     (true = false \/
      callback_throws (mkBrowser (Some "token-1") None "" "" (fun _ => None))
        (wire_result r) = None \/
      callback_throws (mkBrowser (Some "token-1") None "" "" (fun _ => None))
        (wire_result r) = Some RaisedNullish)) /\
    total_files_scanned (scan_summary (wire_result r)) = List.length Scans.overlap /\
    map (fun g => (gi_detection_method g, map name (gi_files g)))
        (duplicate_groups (wire_result r))
    = map (fun g => (detection_method g, map ref_name (files g)))
          (scan_groups (Sample.world (Scans.always 0.95%float) Scans.t0)
             (mkBody (Some Scans.overlap) (Some (ui_similarityThreshold initial_state))
                     (Some (ui_includeSimilar initial_state))) Scans.overlap).
Proof.
  apply (ui_shows_the_scan (mkBrowser (Some "token-1") None "" "" (fun _ => None))
           (Sample.world (Scans.always 0.95%float) Scans.t0)
           Scans.overlap true initial_state); try reflexivity.
  discriminate.
Defined.

(** X18: when the handler refuses a scan, the component shows the status
    line "AI service error: 500 - <statusText>" and not the message of the
    handler; the result shown before stays. *)
Theorem ui_hides_the_handler_message (br : Browser) (w : World) (fs : list File)
    (notify : bool) (st : UiState) (m : string) :
  fetch_rejects br = None ->
  fs <> [] ->
  fst (serve w (scan_request br fs (ui_similarityThreshold st) (ui_includeSimilar st)))
  = Failed m ->
  error (fst (fst (handleScan br w fs notify st)))
  = Some ("AI service error: 500 - " ++ statusText br)%string /\
  results (fst (fst (handleScan br w fs notify st))) = results st /\
  isScanning (fst (fst (handleScan br w fs notify st))) = false.
Proof.
  intros Hnet Hne Hm. unfold handleScan. destruct fs as [|f fs]; [congruence|].
  pose proof (detectDuplicates_refused br w (f :: fs) _ _ m Hnet Hm) as Hout.
  destruct (detectDuplicates br w (f :: fs) (ui_similarityThreshold st) (ui_includeSimilar st))
    as [[out sent] events]. cbn [fst] in Hout. subst out. repeat split.
Qed.

Lemma ui_hides_the_handler_message_witness :
  error (fst (fst (handleScan (mkBrowser None None "Internal Server Error" "" (fun _ => None))
                     (mkWorld None None None (Scans.always 1%float)
                              (fun _ => AuthNotOk) false Scans.t0 Scans.t0)
                     Scans.overlap false initial_state)))
  = Some ("AI service error: 500 - "
          ++ statusText (mkBrowser None None "Internal Server Error" "" (fun _ => None)))%string /\
  results (fst (fst (handleScan (mkBrowser None None "Internal Server Error" "" (fun _ => None))
                       (mkWorld None None None (Scans.always 1%float)
                                (fun _ => AuthNotOk) false Scans.t0 Scans.t0)
                       Scans.overlap false initial_state)))
  = results initial_state /\
  isScanning (fst (fst (handleScan (mkBrowser None None "Internal Server Error" "" (fun _ => None))
                          (mkWorld None None None (Scans.always 1%float)
                                   (fun _ => AuthNotOk) false Scans.t0 Scans.t0)
                          Scans.overlap false initial_state))) = false.
Proof.
  apply (ui_hides_the_handler_message
           (mkBrowser None None "Internal Server Error" "" (fun _ => None))
           (mkWorld None None None (Scans.always 1%float)
                    (fun _ => AuthNotOk) false Scans.t0 Scans.t0)
           Scans.overlap false initial_state "Supabase configuration missing").
  - reflexivity.
  - discriminate.
  - vm_compute. reflexivity.
Defined.

(** A saving that the handler computes as a negative zero reaches the
    component as zero. *)
Example negative_zero_on_the_wire :
  map potential_savings_mb
      (response_groups
         (fst (serve (Sample.world (Scans.always 0.95%float) Scans.t0)
                     (Sample.post None
                        [Sample.file "a.txt" (Some "alpha") 131072 "text/plain" "h1";
                         Sample.file "b.txt" (Some "alpha.") 100 "text/plain" "h2"]
                        None None))))
  = [(-0)%float] /\
  map (fun r => map potential_savings_mb (duplicate_groups r))
      (match results
               (fst (fst (handleScan (mkBrowser None None "" "" (fun _ => None))
                            (Sample.world (Scans.always 0.95%float) Scans.t0)
                            [Sample.file "a.txt" (Some "alpha") 131072 "text/plain" "h1";
                             Sample.file "b.txt" (Some "alpha.") 100 "text/plain" "h2"]
                            false initial_state))) with
       | Some r => [r]
       | None => []
       end)
  = [[0%float]].
Proof. split; vm_compute; reflexivity. Qed.

(** Without a session the header arrives as [Bearer] and the handler looks
    up the token [Bearer]. *)
Example lookup_without_session :
  lookups (snd (detectDuplicates (mkBrowser None None "" "" (fun _ => None))
                  (Sample.world (Scans.always 0.95%float) Scans.t0)
                  Scans.overlap 0.9%float true))
  = [UserLookup "Bearer"] /\
  lookups (snd (detectDuplicates (mkBrowser (Some "token-1") None "" "" (fun _ => None))
                  (Sample.world (Scans.always 0.95%float) Scans.t0)
                  Scans.overlap 0.9%float true))
  = [UserLookup "token-1"].
Proof. split; vm_compute; reflexivity. Qed.

(** An answer whose score is not a number but converts to one at or above
    the threshold ([true] converts to 1) is grouped, and the group reports
    the value as it came. *)
Example coerced_score_is_grouped :
  map gi_similarity_score
      (response_groups
         (fst (serve (Sample.world
                        (fun _ _ => Parsed (mkSimilarity (Js.NonNum "true" 1%float)
                                              None None [] []))
                        Scans.t0)
                     (Sample.post None [Scans.a_txt; Scans.c_txt] None None))))
  = [Js.NonNum "true" 1%float].
Proof. vm_compute. reflexivity. Qed.
